(** * Recognition pipeline and event store of ar-gesture-ai

    A shallow embedding of [backend/facial_expression.py],
    [backend/gesture_recognition.py] and [backend/storage.py], and of the
    event endpoints of [backend/app.py], the key handling and confidence
    bar of [ui/], and the countries service and routes.

    Conventions of the embedding:
    - Python floats are modelled as rationals [Q] in the recognizers, and
      as [pyfloat] (with infinities and NaN) where a caller can pass any
      float; numpy's [sqrt] is a
      parameter of the sections that use it, so every result holds for any
      square-root function.
    - Python exceptions are the constructors of [exn]; a computation that
      may raise returns [res A].
    - Effects visible to a caller (calls into collaborators, log records) are
      written out in a trace; [M A] is the trace-and-exception monad of the
      recognizers.
    - External collaborators (MediaPipe, OpenCV, scikit-learn objects) are
      section variables: the theorems hold for all of their behaviours.
      The MongoDB server's answer to each driver call is an argument of the
      storage functions, so their theorems hold for every answer a
      connected server may give, failures included.
    - A Python [str] is represented by its UTF-8 encoding. *)

From Stdlib Require Import QArith String List Lia ZArith Sorted Permutation.
Import ListNotations.

Open Scope string_scope.

(** ** Exceptions, results and the trace monad *)

Inductive exn :=
| IndexError
| AttributeError
| ValueError
| NotFittedError
| UnpicklingError
| OperationFailure
| ServerSelectionTimeoutError
| OtherError.

Inductive res (A : Type) :=
| Ok (a : A)
| Raise (e : exn).
Arguments Ok {A} a.
Arguments Raise {A} e.

(** Bind of [res], for code with no visible effects. *)
Definition rbind {A B} (r : res A) (f : A -> res B) : res B :=
  match r with
  | Ok a => f a
  | Raise e => Raise e
  end.

Notation "x <-? r ;; k" := (rbind r (fun x => k))
  (at level 61, r at next level, right associativity).

Inductive level := LWarning | LError | LInfo.

(** Collaborators whose invocation the pipeline claims are about. *)
Inductive component :=
| LandmarkProvider
| FeatureExtractor
| FeatureScaler
| ModelClassifier.

Inductive event :=
| Call (c : component)
| Log (l : level).

Definition trace := list event.

Definition M (A : Type) : Type := (trace * res A)%type.

Definition ret {A} (a : A) : M A := ([], Ok a).

Definition lift {A} (r : res A) : M A := ([], r).

Definition emit (ev : event) : M unit := ([ev], Ok tt).

Definition bind {A B} (m : M A) (f : A -> M B) : M B :=
  match m with
  | (t, Ok a) => let (t', r) := f a in (app t t', r)
  | (t, Raise e) => (t, Raise e)
  end.

(** [try: m except Exception as e: h e] *)
Definition try_except {A} (m : M A) (h : exn -> M A) : M A :=
  match m with
  | (t, Ok a) => (t, Ok a)
  | (t, Raise e) => let (t', r) := h e in (app t t', r)
  end.

Notation "x <- m ;; k" := (bind m (fun x => k))
  (at level 61, m at next level, right associativity).
Notation "m ;;; k" := (bind m (fun _ => k))
  (at level 61, right associativity).

(** Strict comparison of floats. *)
Definition Qltb (x y : Q) : bool := negb (Qle_bool y x).

(** A Python float where infinities and NaN matter (the request bodies of
    the event API and the arguments of the HUD): a finite value, [inf]
    ([PInf false]), [-inf] ([PInf true]) or [nan]. *)
Inductive pyfloat :=
| PFin (q : Q)
| PInf (neg : bool)
| PNaN.

(** [a < b] on floats; every comparison with [nan] is false. *)
Definition pyfloat_lt (a b : pyfloat) : bool :=
  match a, b with
  | PFin x, PFin y => Qltb x y
  | PFin _, PInf neg => negb neg
  | PInf neg, PFin _ => neg
  | PInf true, PInf false => true
  | _, _ => false
  end.

(** Python list indexing [xs[i]] with [i >= 0]. *)
Definition getitem {A} (xs : list A) (i : nat) : res A :=
  match nth_error xs i with
  | Some a => Ok a
  | None => Raise IndexError
  end.

(** A MediaPipe landmark; a missing attribute raises [AttributeError]. *)
Record landmark := mkLandmark {
  lx : option Q;
  ly : option Q;
  lz : option Q
}.

Definition getattr (o : option Q) : res Q :=
  match o with
  | Some v => Ok v
  | None => Raise AttributeError
  end.

(** ** facial_expression.py *)

Module FacialExpression.

Definition EXPRESSIONS : list string :=
  ["Neutral"; "Happy"; "Sad"; "Angry"; "Unknown"].

Definition MOUTH_LEFT := 61%nat.
Definition MOUTH_RIGHT := 291%nat.
Definition MOUTH_TOP := 13%nat.
Definition MOUTH_BOTTOM := 14%nat.
Definition LEFT_EYE_LEFT := 33%nat.
Definition LEFT_EYE_RIGHT := 133%nat.

Section Recognizer.

(** numpy's square root on floats. *)
Variable sqrt : Q -> Q.

(** The body of the [try] block of [extract_mouth_distance]. *)
Definition extract_mouth_distance_body (lms : list landmark) : res Q :=
  mouth_left <-? getitem lms MOUTH_LEFT ;;
  mouth_right <-? getitem lms MOUTH_RIGHT ;;
  mouth_top <-? getitem lms MOUTH_TOP ;;
  mouth_bottom <-? getitem lms MOUTH_BOTTOM ;;
  lxl <-? getattr (lx mouth_left) ;;
  lxr <-? getattr (lx mouth_right) ;;
  lyl <-? getattr (ly mouth_left) ;;
  lyr <-? getattr (ly mouth_right) ;;
  let left_right_distance :=
    sqrt ((lxl - lxr) ^ 2 + (lyl - lyr) ^ 2)%Q in
  yt <-? getattr (ly mouth_top) ;;
  yb <-? getattr (ly mouth_bottom) ;;
  let top_bottom_distance := sqrt ((yt - yb) ^ 2)%Q in
  Ok (if Qltb 0 left_right_distance
      then (top_bottom_distance / (left_right_distance + 1e-5))%Q
      else 0%Q).

(** [except (IndexError, AttributeError): return 0.0] *)
Definition catch_lookup (r : res Q) : res Q :=
  match r with
  | Ok v => Ok v
  | Raise IndexError | Raise AttributeError => Ok 0%Q
  | Raise e => Raise e
  end.

Definition extract_mouth_distance (lms : list landmark) : res Q :=
  catch_lookup (extract_mouth_distance_body lms).

Definition extract_eye_distance_body (lms : list landmark) : res Q :=
  left_eye_left <-? getitem lms LEFT_EYE_LEFT ;;
  left_eye_right <-? getitem lms LEFT_EYE_RIGHT ;;
  xl <-? getattr (lx left_eye_left) ;;
  xr <-? getattr (lx left_eye_right) ;;
  yl <-? getattr (ly left_eye_left) ;;
  yr <-? getattr (ly left_eye_right) ;;
  Ok (sqrt ((xl - xr) ^ 2 + (yl - yr) ^ 2)%Q).

Definition extract_eye_distance (lms : list landmark) : res Q :=
  catch_lookup (extract_eye_distance_body lms).

(** The heuristic of [recognize] (lines 114-125 of the source). *)
Definition classify_expression (mouth_distance eye_distance : Q) : string * Q :=
  if Qltb 0.02 mouth_distance && Qltb 0.01 eye_distance then ("Happy", 0.85)
  else if Qltb mouth_distance 0.01 && Qltb eye_distance 0.008 then ("Sad", 0.80)
  else if Qltb 0.015 mouth_distance && Qltb eye_distance 0.009 then ("Angry", 0.75)
  else ("Neutral", 0.90).

(** Whether [cv2] was importable. *)
Variable cv2_available : bool.
Variable image : Type.
(** [cv2.cvtColor(image, cv2.COLOR_BGR2RGB)] *)
Variable cvtColor : image -> res image.
(** [self.face_mesh.process(image_rgb).multi_face_landmarks], each face given
    by its [.landmark] list; [None] is the empty list. *)
Variable face_mesh_process : image -> res (list (list landmark)).
(** [self.face_mesh.close()], given whether it was closed before. *)
Variable face_mesh_close : bool -> res unit.

Definition recognize (img : image) : M (string * Q) :=
  try_except
    (if negb cv2_available then
       emit (Log LWarning) ;;; ret ("Unknown", 0%Q)
     else
       image_rgb <- lift (cvtColor img) ;;
       emit (Call LandmarkProvider) ;;;
       results <- lift (face_mesh_process image_rgb) ;;
       match results with
       | face_landmarks :: _ =>
           mouth_distance <- lift (extract_mouth_distance face_landmarks) ;;
           eye_distance <- lift (extract_eye_distance face_landmarks) ;;
           ret (classify_expression mouth_distance eye_distance)
       | [] => ret ("Unknown", 0%Q)
       end)
    (fun _ => emit (Log LError) ;;; ret ("Error", 0%Q)).

(** [close]: the face mesh is closed or not; its error is logged. *)
Definition close (closed : bool) : M unit * bool :=
  (try_except (lift (face_mesh_close closed))
     (fun _ => emit (Log LError)), true).

End Recognizer.

End FacialExpression.

(** ** gesture_recognition.py *)

Module Gesture.

Definition GESTURES : list string :=
  ["Hello"; "Help"; "Yes"; "No"; "Stop"; "Neutral"].

(** scikit-learn classifiers: the untrained [RandomForestClassifier] built
    by [load_model], or a fitted model unpickled from disk, given by its
    [predict_proba] on one feature row. *)
Inductive classifier :=
| RandomForestClassifier (n_estimators random_state : Z)
| FittedClassifier (proba : list Q -> res (list Q)).

Definition predict_proba (c : classifier) (x : list Q) : res (list Q) :=
  match c with
  | RandomForestClassifier _ _ => Raise NotFittedError
  | FittedClassifier proba => proba x
  end.

Inductive scaler :=
| StandardScaler
| FittedScaler (tr : list Q -> res (list Q)).

Definition transform (s : scaler) (x : list Q) : res (list Q) :=
  match s with
  | StandardScaler => Raise NotFittedError
  | FittedScaler tr => tr x
  end.

(** The fields [self.classifier] and [self.scaler]. *)
Record recognizer := mkRecognizer {
  rec_classifier : option classifier;
  rec_scaler : option scaler
}.

(** The dictionary stored in the pickle file, read with [data.get]. *)
Record model_data := mkModelData {
  data_classifier : option classifier;
  data_scaler : option scaler
}.

(** [load_model], given [os.path.exists(self.model_path)] and the outcome
    of [pickle.load(f)]; returns the new [classifier] and [scaler] fields. *)
Definition load_model (path_exists : bool) (pickle_load : res model_data)
    : M recognizer :=
  try_except
    (if path_exists then
       data <- lift pickle_load ;;
       emit (Log LInfo) ;;;
       ret (mkRecognizer (data_classifier data) (data_scaler data))
     else
       emit (Log LWarning) ;;;
       ret (mkRecognizer (Some (RandomForestClassifier 100 42))
                         (Some StandardScaler)))
    (fun e => emit (Log LError) ;;; lift (Raise e)).

(** [for landmark in hand_landmarks.landmark:
       features.extend([landmark.x, landmark.y, landmark.z])] *)
Fixpoint flatten_landmarks (lms : list landmark) : res (list Q) :=
  match lms with
  | [] => Ok []
  | l :: rest =>
      x <-? getattr (lx l) ;;
      y <-? getattr (ly l) ;;
      z <-? getattr (lz l) ;;
      fs <-? flatten_landmarks rest ;;
      Ok (x :: y :: z :: fs)
  end.

(** [extract_landmarks]; [None] for a missing landmark set. The feature
    row of [np.array(features).reshape(1, -1)] is the list itself. *)
Definition extract_landmarks (hand_landmarks : option (list landmark))
    : M (option (list Q)) :=
  try_except
    (match hand_landmarks with
     | None => ret None
     | Some lms =>
         features <- lift (flatten_landmarks lms) ;;
         if negb (Nat.eqb (length features) 63) then
           emit (Log LWarning) ;;; ret None
         else ret (Some features)
     end)
    (fun _ => emit (Log LError) ;;; ret None).

Definition qmax_step (acc : Q * nat * nat) (p : Q) : Q * nat * nat :=
  let '(best, best_idx, i) := acc in
  if Qltb best p then (p, i, S i) else (best, best_idx, S i).

(** [(np.max(probabilities), np.argmax(probabilities))]: the first index of
    the maximum; an empty array raises [ValueError]. *)
Definition max_argmax (ps : list Q) : res (Q * nat) :=
  match ps with
  | [] => Raise ValueError
  | p :: rest =>
      let '(best, best_idx, _) := fold_left qmax_step rest (p, 0%nat, 1%nat) in
      Ok (best, best_idx)
  end.

Section Recognizer.

Variable cv2_available : bool.
Variable image : Type.
Variable cvtColor : image -> res image.
(** [h, w, c = image.shape] *)
Variable image_shape : image -> res unit.
(** [self.hands.process(image_rgb).multi_hand_landmarks], each hand given by
    its [.landmark] list; [None] is the empty list. *)
Variable hands_process : image -> res (list (list landmark)).
(** [self.hands.close()], given whether it was closed before. *)
Variable hands_close : bool -> res unit.

Definition recognize (self : recognizer) (img : image) : M (string * Q) :=
  try_except
    (match rec_classifier self, rec_scaler self with
     | Some clf, Some sc =>
         image_rgb <- (if cv2_available then lift (cvtColor img) else ret img) ;;
         lift (image_shape img) ;;;
         emit (Call LandmarkProvider) ;;;
         results <- lift (hands_process image_rgb) ;;
         match results with
         | landmarks :: _ =>
             emit (Call FeatureExtractor) ;;;
             features <- extract_landmarks (Some landmarks) ;;
             match features with
             | Some fs =>
                 emit (Call FeatureScaler) ;;;
                 features_scaled <- lift (transform sc fs) ;;
                 emit (Call ModelClassifier) ;;;
                 probabilities <- lift (predict_proba clf features_scaled) ;;
                 best <- lift (max_argmax probabilities) ;;
                 let (confidence, gesture_idx) := best in
                 label <- lift (getitem GESTURES gesture_idx) ;;
                 ret (label, confidence)
             | None => ret ("No Hand", 0%Q)
             end
         | [] => ret ("No Hand", 0%Q)
         end
     | _, _ => emit (Log LWarning) ;;; ret ("Unknown", 0%Q)
     end)
    (fun _ => emit (Log LError) ;;; ret ("Error", 0%Q)).

(** [close]; the hands object is closed afterwards. *)
Definition close (closed : bool) : M unit * bool :=
  (try_except (lift (hands_close closed))
     (fun _ => emit (Log LError)), true).

End Recognizer.

End Gesture.

(** ** storage.py *)

Module Storage.

(** The event dictionary passed to [insert_event]. *)
Record event_doc := mkEvent {
  ev_gesture : string;
  ev_expression : string;
  ev_confidence : pyfloat;
  ev_timestamp : option string
}.

(** A stored document: the inserted dictionary and its [_id]. *)
Record document := mkDocument {
  doc_id : nat;
  doc_event : event_doc
}.

(** [self.events_collection] ([None] in offline mode) with the collection's
    documents in natural (insertion) order, and the next fresh [ObjectId]. *)
Record storage := mkStorage {
  events_collection : option (list document);
  next_id : nat
}.

(** [__init__]: [ping] is the outcome of [self.client.admin.command('ping')],
    [existing] the documents already in the collection. Every exception of
    the connection attempt leaves the collection unset. *)
Definition init (ping : res unit) (existing : list document) (seed : nat)
    : storage :=
  match ping with
  | Ok _ => mkStorage (Some existing) seed
  | Raise _ => mkStorage None seed
  end.

(** The server's answer to a write ([insert_one], [delete_many]) on a
    connected collection: it applies and acknowledges it, or the call raises
    [e] ([OperationFailure] for a user without write rights, a network
    error, a write-concern error reported after the write, ...), the
    collection then holding the documents [after], about which nothing is
    assumed. *)
Inductive write_result :=
| Acknowledged
| WriteRaised (e : exn) (after : list document).

(** The server's answer to a [find] query on a connected collection: given
    the documents the filter matches, the documents it returns in the
    order it returns them, or the exception the call raises. *)
Definition query := list document -> res (list document).

(** [insert_event]; [now] is [datetime.now(timezone.utc).isoformat()] and
    [w] the server's answer to [insert_one]. The [ObjectId] is generated by
    the driver before the call. *)
Definition insert_event (w : write_result) (self : storage) (now : string)
    (event : event_doc) : option nat * storage :=
  match events_collection self with
  | None => (None, self)
  | Some docs =>
      let event :=
        match ev_timestamp event with
        | Some _ => event
        | None => mkEvent (ev_gesture event) (ev_expression event)
                          (ev_confidence event) (Some now)
        end in
      let inserted_id := next_id self in
      match w with
      | Acknowledged =>
          (Some inserted_id,
           mkStorage (Some (app docs [mkDocument inserted_id event]))
                     (S inserted_id))
      | WriteRaised _ after => (None, mkStorage (Some after) (S inserted_id))
      end
  end.

(** The sort key: a missing [timestamp] sorts as [null], below every string;
    strings compare by their bytes. *)
Definition ts_key (d : document) : option string := ev_timestamp (doc_event d).

Definition key_ge (a b : option string) : bool :=
  match a, b with
  | None, None => true
  | None, Some _ => false
  | Some _, None => true
  | Some x, Some y =>
      match String.compare x y with
      | Lt => false
      | _ => true
      end
  end.

Definition key_gt (a b : option string) : bool := negb (key_ge b a).

(** The order [sort("timestamp", -1)] puts documents in. *)
Definition newer_first (a b : document) : Prop :=
  key_ge (ts_key a) (ts_key b) = true.

(** The answers a server may give to a query sorted by
    [("timestamp", -1)]: the matching documents, reordered by descending
    timestamp. Documents with equal timestamps come in no guaranteed order,
    which may differ from one query to the next. *)
Definition sorted_answer (l r : list document) : Prop :=
  Permutation l r /\ Sorted newer_first r.

Definition answers_sorted (find : query) : Prop :=
  forall l r, find l = Ok r -> sorted_answer l r.

Fixpoint insert_desc (d : document) (l : list document) : list document :=
  match l with
  | [] => [d]
  | y :: ys =>
      if key_ge (ts_key d) (ts_key y) then d :: y :: ys
      else y :: insert_desc d ys
  end.

(** One sorted answer: descending, ties kept in natural order. *)
Fixpoint sort_desc (l : list document) : list document :=
  match l with
  | [] => []
  | x :: xs => insert_desc x (sort_desc xs)
  end.

(** [get_events]; [find] is the server's answer to
    [find({}).skip(offset).limit(limit).sort("timestamp", -1)] before the
    skip and the limit: a MongoDB cursor applies its sort before [skip] and
    [limit], whatever order the modifiers are chained in. Every exception
    of the query gives [[]]. *)
Definition get_events (find : query) (self : storage) (limit offset : Z)
    : list document :=
  match events_collection self with
  | None => []
  | Some docs =>
      let limit := Z.max 1 (Z.min limit 1000) in
      let offset := Z.max 0 offset in
      match find docs with
      | Ok sorted => firstn (Z.to_nat limit) (skipn (Z.to_nat offset) sorted)
      | Raise _ => []
      end
  end.

(** [clear_events]; [w] is the server's answer to [delete_many({})]. *)
Definition clear_events (w : write_result) (self : storage) : bool * storage :=
  match events_collection self with
  | None => (false, self)
  | Some _ =>
      match w with
      | Acknowledged => (true, mkStorage (Some []) (next_id self))
      | WriteRaised _ after => (false, mkStorage (Some after) (next_id self))
      end
  end.

End Storage.

(** ** Reference definitions *)

(** A square root exact on squares of rationals, used to evaluate the
    recognizers on concrete faces. *)
Definition exact_sqrt (q : Q) : Q :=
  let r := Qred q in
  Qmake (Z.sqrt (Qnum r)) (Z.to_pos (Z.sqrt (Zpos (Qden r)))).

(** The expression decision table as the specification words it (section
    4.2), to be compared with [FacialExpression.classify_expression]. *)
Definition spec_expression_table (m e : Q) : string * Q :=
  if Qltb 0.15 m then ("Happy", 0.85)
  else if Qltb 0.08 m && Qle_bool m 0.15 && Qltb e 0.25 then ("Angry", 0.80)
  else if Qltb m 0.05 && Qltb e 0.20 then ("Sad", 0.75)
  else ("Neutral", 0.90).

(** A face mesh of [n] points in which the points listed in [pts] are
    placed and every other point sits at the origin. *)
Definition face_of (n : nat) (pts : list (nat * (Q * Q))) : list landmark :=
  map (fun i =>
         match find (fun p => Nat.eqb (fst p) i) pts with
         | Some (_, (x, y)) => mkLandmark (Some x) (Some y) (Some 0%Q)
         | None => mkLandmark (Some 0%Q) (Some 0%Q) (Some 0%Q)
         end) (seq 0 n).

(** A face of 292 points with mouth ratio about 0.03 and eye distance 0.1,
    the boundary scenario of the specification. *)
Definition c1_face : list landmark :=
  face_of 292 [(61%nat, (0.4, 0.5)); (291%nat, (0.6, 0.5));
               (13%nat, (0.5, 0.5)); (14%nat, (0.5, 0.506));
               (33%nat, (0.3, 0.4)); (133%nat, (0.4, 0.4))].

(** A face mesh of 100 points: every lookup of a mouth or eye corner
    beyond index 99 fails. *)
Definition short_face : list landmark := face_of 100 [].

(** The vocabularies of the two modalities: their label lists and the
    sentinels [recognize] returns. *)
Definition gesture_vocabulary : list string :=
  app Gesture.GESTURES ["No Hand"; "Unknown"; "Error"].

Definition expression_vocabulary : list string :=
  app FacialExpression.EXPRESSIONS ["Error"].

(** The contract of [predict_proba]: every class probability is in [0, 1]. *)
Definition proba_contract (self : Gesture.recognizer) : Prop :=
  forall clf, Gesture.rec_classifier self = Some clf ->
  forall x ps, Gesture.predict_proba clf x = Ok ps ->
  Forall (fun p => 0 <= p <= 1)%Q ps.

(** What [recognize] does with a feature row once the landmark provider
    and the extractor have succeeded: scale it, ask the classifier for its
    probabilities and take their maximum and its index in [GESTURES]. *)
Definition gesture_classify (sc : Gesture.scaler) (clf : Gesture.classifier)
    (fs : list Q) : res (string * Q) :=
  features_scaled <-? Gesture.transform sc fs ;;
  probabilities <-? Gesture.predict_proba clf features_scaled ;;
  best <-? Gesture.max_argmax probabilities ;;
  let (confidence, gesture_idx) := best in
  label <-? getitem Gesture.GESTURES gesture_idx ;;
  Ok (label, confidence).

(** MediaPipe's [close] on a solution: it releases the graph and sets it to
    [None], so a second call fails with [AttributeError]. *)
Definition mediapipe_close (closed : bool) : res unit :=
  if closed then Raise AttributeError else Ok tt.

(** An event store whose connection probe timed out. *)
Definition offline_store : Storage.storage :=
  Storage.init (Raise ServerSelectionTimeoutError) [] 0.

Definition sample_event (ts : string) : Storage.event_doc :=
  Storage.mkEvent "Hello" "Happy" (PFin 0.92) (Some ts).

(** A connected store already holding one event dated 2030. *)
Definition store_2030 : Storage.storage :=
  Storage.init (Ok tt)
    [Storage.mkDocument 0 (sample_event "2030-01-01T00:00:00+00:00")] 1.

(** ** Further queries of storage.py *)

Module StorageQueries.

Import Storage.

(** [cursor.limit(n)]: 0 means no limit, a positive [n] at most [n]
    documents; a negative [n] asks for at most [|n|] documents in a single
    reply batch, of which the server returns the first [batch] (the ones
    that fit its maximum message size). *)
Definition mongo_limit {A} (n : Z) (batch : nat) (l : list A) : list A :=
  if Z.eqb n 0 then l
  else if Z.ltb 0 n then firstn (Z.to_nat n) l
  else firstn (Nat.min (Z.to_nat (Z.abs n)) batch) l.

(** [get_events_by_gesture]: [find({"gesture": gesture})] answered by
    [find] on the matching documents, then limited; the limit is not
    clamped. Every exception of the query gives [[]]. *)
Definition get_events_by_gesture (find : query) (batch : nat) (self : storage)
    (gesture : string) (limit : Z) : list document :=
  match events_collection self with
  | None => []
  | Some docs =>
      if String.eqb gesture "" then []
      else match find (filter (fun d => String.eqb (ev_gesture (doc_event d))
                                                    gesture) docs) with
           | Ok sorted => mongo_limit limit batch sorted
           | Raise _ => []
           end
  end.

Section ById.

(** [ObjectId(event_id)]: the identifier a string denotes, or the
    [InvalidId] error it raises. *)
Variable object_id : string -> res nat.

(** [get_event_by_id]: [find_one({"_id": object_id})], the document with
    that identifier ([_id] is unique in a collection), when the server
    answers the call ([q = Ok tt]); an exception of the call gives
    [None]. *)
Definition get_event_by_id (q : res unit) (self : storage) (event_id : string)
    : option document :=
  match events_collection self with
  | None => None
  | Some docs =>
      if String.eqb event_id "" then None
      else match object_id event_id with
           | Raise _ => None
           | Ok oid =>
               match q with
               | Ok _ => find (fun d => Nat.eqb (doc_id d) oid) docs
               | Raise _ => None
               end
           end
  end.

End ById.

End StorageQueries.

(** ** app.py *)

Module App.

Import Storage.

(** The request body [Event] of [POST /log_event]; pydantic's [float]
    accepts [inf] and [nan]. *)
Record event := mkAppEvent {
  gesture : string;
  expression : string;
  confidence : pyfloat;
  timestamp : option string
}.

Record event_response := mkEventResponse {
  resp_id : string;
  resp_gesture : string;
  resp_expression : string;
  resp_confidence : pyfloat;
  resp_timestamp : string
}.

(** An endpoint's outcome: the body the handler returns (answered 200), or
    a raised [HTTPException(status_code, detail)]. *)
Inductive http_response (A : Type) :=
| HTTP200 (body : A)
| HTTPError (status_code : Z) (detail : string).
Arguments HTTP200 {A} body.
Arguments HTTPError {A} status_code detail.

(** The one-byte characters [str.isspace] accepts: U+0009 to U+000D,
    U+001C to U+001F and the space. *)
Definition is_space (c : Ascii.ascii) : bool :=
  let n := Ascii.nat_of_ascii c in
  Nat.eqb n 32 || (Nat.leb 9 n && Nat.leb n 13) || (Nat.leb 28 n && Nat.leb n 31).

(** The two-byte ones: U+0085 and U+00A0 (C2 85, C2 A0). *)
Definition is_space2 (c1 c2 : Ascii.ascii) : bool :=
  Nat.eqb (Ascii.nat_of_ascii c1) 194 &&
  (Nat.eqb (Ascii.nat_of_ascii c2) 133 || Nat.eqb (Ascii.nat_of_ascii c2) 160).

(** The three-byte ones: U+1680 (E1 9A 80), U+2000 to U+200A (E2 80 80 to
    E2 80 8A), U+2028, U+2029, U+202F (E2 80 A8, A9, AF), U+205F
    (E2 81 9F) and U+3000 (E3 80 80). *)
Definition is_space3 (c1 c2 c3 : Ascii.ascii) : bool :=
  let b1 := Ascii.nat_of_ascii c1 in
  let b2 := Ascii.nat_of_ascii c2 in
  let b3 := Ascii.nat_of_ascii c3 in
  (Nat.eqb b1 225 && Nat.eqb b2 154 && Nat.eqb b3 128) ||
  (Nat.eqb b1 226 && Nat.eqb b2 128 &&
     ((Nat.leb 128 b3 && Nat.leb b3 138) || Nat.eqb b3 168 || Nat.eqb b3 169 ||
      Nat.eqb b3 175)) ||
  (Nat.eqb b1 226 && Nat.eqb b2 129 && Nat.eqb b3 159) ||
  (Nat.eqb b1 227 && Nat.eqb b2 128 && Nat.eqb b3 128).

(** [len(s.strip()) == 0] on the UTF-8 encoding of [s]: every character is
    a whitespace character of [str.isspace]. *)
Fixpoint strip_is_empty (s : string) : bool :=
  match s with
  | EmptyString => true
  | String c1 s1 =>
      if is_space c1 then strip_is_empty s1
      else match s1 with
           | EmptyString => false
           | String c2 s2 =>
               if is_space2 c1 c2 then strip_is_empty s2
               else match s2 with
                    | EmptyString => false
                    | String c3 s3 =>
                        if is_space3 c1 c2 c3 then strip_is_empty s3 else false
                    end
           end
  end.

Section Endpoints.

(** [str(ObjectId)] *)
Variable str_oid : nat -> string.

Definition str_inserted (r : option nat) : string :=
  match r with
  | Some oid => str_oid oid
  | None => "None"
  end.

(** [log_event]; [db] is the module-level store ([None] when its
    construction raised), [now] the current UTC time in ISO format and [w]
    the server's answer to the [insert_one] of [db.insert_event]. *)
Definition log_event (w : write_result) (db : option storage) (now : string)
    (ev : event) : http_response event_response * option storage :=
  let ts := match timestamp ev with
            | Some t => if String.eqb t "" then now else t
            | None => now
            end in
  if String.eqb (gesture ev) "" || strip_is_empty (gesture ev) then
    (HTTPError 400 "Gesture cannot be empty", db)
  else if String.eqb (expression ev) "" || strip_is_empty (expression ev) then
    (HTTPError 400 "Expression cannot be empty", db)
  else if pyfloat_lt (confidence ev) (PFin 0) || pyfloat_lt (PFin 1) (confidence ev) then
    (HTTPError 400 "Confidence must be between 0 and 1", db)
  else match db with
  | None =>
      (HTTP200 (mkEventResponse "mock_id" (gesture ev) (expression ev)
                                (confidence ev) ts), db)
  | Some store =>
      let (result, store') :=
        insert_event w store now
          (mkEvent (gesture ev) (expression ev) (confidence ev) (Some ts)) in
      (HTTP200 (mkEventResponse (str_inserted result) (gesture ev)
                                (expression ev) (confidence ev) ts),
       Some store')
  end.

Definition to_response (d : document) : event_response :=
  mkEventResponse (str_oid (doc_id d)) (ev_gesture (doc_event d))
    (ev_expression (doc_event d)) (ev_confidence (doc_event d))
    (match ev_timestamp (doc_event d) with Some t => t | None => "" end).

(** [GET /events]; [find] answers the query of [db.get_events]. *)
Definition get_events_endpoint (find : query) (db : option storage) (limit offset : Z)
    : http_response (list event_response) :=
  if Z.ltb limit 1 || Z.ltb 1000 limit then
    HTTPError 400 "Limit must be between 1 and 1000"
  else if Z.ltb offset 0 then HTTPError 400 "Offset must be non-negative"
  else match db with
  | None => HTTP200 []
  | Some store => HTTP200 (map to_response (get_events find store limit offset))
  end.

End Endpoints.

(** [DELETE /events]: the body's [status] and [message]; [w] is the
    server's answer to the [delete_many] of [db.clear_events()], whose
    result is not inspected. *)
Definition clear_events_endpoint (w : write_result) (db : option storage)
    : http_response (string * string) * option storage :=
  match db with
  | None => (HTTP200 ("warning", "MongoDB not available"), db)
  | Some store =>
      let (_, store') := clear_events w store in
      (HTTP200 ("success", "All events cleared"), Some store')
  end.

End App.

(** ** ui/main.py and ui/hud_elements.py *)

Module UI.

(** The key step of [GestureAIUI.run]: [key = cv2.waitKey(1) & 0xFF];
    returns the new [self.running] and the events passed to [log_event]. *)
Definition handle_key (key : Z) (gesture expression : string) (gesture_conf : pyfloat)
    (api_available : bool) : bool * list App.event :=
  let k := Z.land key 255 in
  if Z.eqb k 113 then (false, [])
  else if Z.eqb k 114 && negb (String.eqb gesture "Unknown") then
    (true, if api_available
           then [App.mkAppEvent gesture expression gesture_conf None]
           else [])
  else (true, []).

(** A confidence argument: a Python int or float, or any other object. *)
Inductive pyval := PyNum (f : pyfloat) | PyOther.

(** The drawing calls a HUD method makes on the frame. *)
Inductive draw_cmd :=
| Rect (x1 y1 x2 y2 : Z) (color : Z * Z * Z) (thickness : Z)
| LabelText (label : string) (confidence : Q) (x y : Z).

Definition color_gesture : Z * Z * Z := (0, 255, 0)%Z.
Definition color_confidence : Z * Z * Z := (255, 0, 0)%Z.
Definition color_text : Z * Z * Z := (255, 255, 255)%Z.

(** Python [int()] of a float: truncation toward zero. *)
Definition py_int (q : Q) : Z := Z.quot (Qnum q) (Zpos (Qden q)).

(** Python's [min(a, b)] and [max(a, b)]: the first argument unless the
    second compares smaller (greater). *)
Definition py_min (a b : pyfloat) : pyfloat := if pyfloat_lt b a then b else a.
Definition py_max (a b : pyfloat) : pyfloat := if pyfloat_lt a b then b else a.

(** [HUDRenderer.draw_confidence_bar]: the frame is the list of drawing
    calls made on it so far, [None] for a missing frame. The label text is
    [f"{label}: {confidence:.0%}"], recorded with the clamped confidence.
    [int(width * confidence)] raises on an infinite or NaN value; the
    handler then returns the frame with the background drawn. *)
Definition draw_confidence_bar (frame : option (list draw_cmd)) (x y width height : Z)
    (confidence : pyval) (label : string) : option (list draw_cmd) :=
  match frame with
  | None => None
  | Some cmds =>
      let c := match confidence with PyNum f => f | PyOther => PFin 0 end in
      let c := py_max (PFin 0) (py_min (PFin 1) c) in
      let background := Rect x y (x + width) (y + height) (50, 50, 50)%Z (-1)%Z in
      match c with
      | PFin c =>
          let filled_width := py_int (inject_Z width * c)%Q in
          let color := if Qltb 0.7 c then color_gesture else color_confidence in
          Some (app cmds
                 (app [background;
                       Rect x y (x + filled_width) (y + height) color (-1);
                       Rect x y (x + width) (y + height) color_text 1]%Z
                      (if String.eqb label "" then []
                       else [LabelText label c x (y - 5)%Z])))
      | _ => Some (app cmds [background])
      end
  end.

End UI.

(** ** countries_service.py and countries_routes.py *)

Module Countries.

(** A value decoded by [response.json()]. *)
#[warnings="-register-all"]
Inductive json :=
| JNull
| JBool (b : bool)
| JNum (q : Q)
| JStr (s : string)
| JArr (l : list json)
| JObj (kvs : list (string * json)).

(** A formatted country: the dictionary built by the service, in key
    order. *)
Definition pydict := list (string * json).

(** Lookup in a decoded JSON object: [json.loads] keeps the last of
    duplicated keys. *)
Definition dict_get (kvs : list (string * json)) (k : string) : option json :=
  fold_left (fun acc kv => if String.eqb (fst kv) k then Some (snd kv) else acc)
    kvs None.

(** The keys of a decoded object, each once, in first-occurrence order. *)
Fixpoint dedup_keys (seen : list string) (ks : list string) : list string :=
  match ks with
  | [] => []
  | k :: rest =>
      if existsb (String.eqb k) seen then dedup_keys seen rest
      else k :: dedup_keys (k :: seen) rest
  end.

Definition dict_keys (kvs : list (string * json)) : list string :=
  dedup_keys [] (map fst kvs).

Definition dict_values (kvs : list (string * json)) : list json :=
  map (fun k => match dict_get kvs k with Some v => v | None => JNull end)
    (dict_keys kvs).

(** [v.get(k, default)]; JSON [null] is [None]. Only a [dict] has [.get]. *)
Definition obj_get (v : json) (k : string) (default : json) : res json :=
  match v with
  | JObj kvs => Ok (match dict_get kvs k with Some x => x | None => default end)
  | _ => Raise AttributeError
  end.

(** Python truthiness. *)
Definition truthy (v : json) : bool :=
  match v with
  | JNull => false
  | JBool b => b
  | JNum q => negb (Qeq_bool q 0)
  | JStr s => negb (String.eqb s "")
  | JArr l => negb (Nat.eqb (length l) 0)
  | JObj kvs => negb (Nat.eqb (length kvs) 0)
  end.

(** [v[0]]: a list's first element, a string's first character; a [dict]
    has no key [0] ([KeyError]) and other values are not subscriptable
    ([TypeError]). *)
Definition index0 (v : json) : res json :=
  match v with
  | JArr (x :: _) => Ok x
  | JArr [] => Raise IndexError
  | JStr (String c _) => Ok (JStr (String c EmptyString))
  | JStr EmptyString => Raise IndexError
  | _ => Raise OtherError
  end.

(** [for x in v]: a list's elements, a [dict]'s keys, a string's
    characters; other values are not iterable. *)
Definition py_iter (v : json) : res (list json) :=
  match v with
  | JArr l => Ok l
  | JObj kvs => Ok (map JStr (dict_keys kvs))
  | JStr s => Ok (map (fun c => JStr (String c EmptyString)) (list_ascii_of_string s))
  | _ => Raise OtherError
  end.

(** The [for country in countries] loop appending to [formatted_countries]. *)
Fixpoint map_res {A B} (f : A -> res B) (l : list A) : res (list B) :=
  match l with
  | [] => Ok []
  | x :: xs => y <-? f x ;; ys <-? map_res f xs ;; Ok (y :: ys)
  end.

(** [country.get("name", {}).get(field, "N/A")] *)
Definition name_field (country : json) (field : string) : res json :=
  n <-? obj_get country "name" (JObj []) ;;
  obj_get n field (JStr "N/A").

(** [country.get("capital", ["N/A"])[0] if country.get("capital") else "N/A"] *)
Definition capital_field (country : json) : res json :=
  cap <-? obj_get country "capital" JNull ;;
  if truthy cap then
    v <-? obj_get country "capital" (JArr [JStr "N/A"]) ;; index0 v
  else Ok (JStr "N/A").

(** The eight keys all the formatters share. *)
Definition format_base (country : json) : res pydict :=
  name <-? name_field country "common" ;;
  official_name <-? name_field country "official" ;;
  flag <-? obj_get country "flag" (JStr "N/A") ;;
  capital <-? capital_field country ;;
  region <-? obj_get country "region" (JStr "N/A") ;;
  subregion <-? obj_get country "subregion" (JStr "N/A") ;;
  population <-? obj_get country "population" (JNum 0) ;;
  area <-? obj_get country "area" (JNum 0) ;;
  Ok [("name", name); ("official_name", official_name); ("flag", flag);
      ("capital", capital); ("region", region); ("subregion", subregion);
      ("population", population); ("area", area)].

(** The dictionary of [fetch_all_countries] and [fetch_country_by_name]. *)
Definition format_full (country : json) : res pydict :=
  base <-? format_base country ;;
  timezones <-? obj_get country "timezones" (JArr []) ;;
  langs <-? obj_get country "languages" JNull ;;
  languages <-? (if truthy langs then
                   v <-? obj_get country "languages" (JObj []) ;;
                   match v with
                   | JObj kvs => Ok (JArr (dict_values kvs))
                   | _ => Raise AttributeError
                   end
                 else Ok (JArr [])) ;;
  cca2 <-? obj_get country "cca2" (JStr "N/A") ;;
  cca3 <-? obj_get country "cca3" (JStr "N/A") ;;
  Ok (app base [("timezones", timezones); ("languages", languages);
                ("cca2", cca2); ("cca3", cca3)]).

(** The dictionary of [fetch_countries_by_region]. *)
Definition format_region (country : json) : res pydict := format_base country.

(** The dictionary of [fetch_countries_by_code]. *)
Definition format_code (country : json) : res pydict :=
  base <-? format_base country ;;
  timezones <-? obj_get country "timezones" (JArr []) ;;
  curs <-? obj_get country "currencies" JNull ;;
  currencies <-? (if truthy curs then
                    v <-? obj_get country "currencies" (JObj []) ;;
                    match v with
                    | JObj kvs => Ok (JArr (map JStr (dict_keys kvs)))
                    | _ => Raise AttributeError
                    end
                  else Ok (JArr [])) ;;
  cca2 <-? obj_get country "cca2" (JStr "N/A") ;;
  cca3 <-? obj_get country "cca3" (JStr "N/A") ;;
  Ok (app base [("timezones", timezones); ("currencies", currencies);
                ("cca2", cca2); ("cca3", cca3)]).

Definition BASE_URL : string := "https://restcountries.com/v3.1".

Section Service.

(** [client.get(url)] followed by [raise_for_status()] and
    [response.json()]: the decoded body, or the raised error. *)
Variable http_get : string -> res json.

(** [fetch_all_countries]: every error propagates. *)
Definition fetch_all_countries : res (list pydict) :=
  countries <-? http_get (BASE_URL ++ "/all") ;;
  cs <-? py_iter countries ;;
  map_res format_full cs.

(** [fetch_country_by_name]: every error gives [None]. *)
Definition fetch_country_by_name (name : string) : option pydict :=
  match (countries <-? http_get (BASE_URL ++ "/name/" ++ name) ;;
         if truthy countries then
           country <-? index0 countries ;;
           f <-? format_full country ;;
           Ok (Some f)
         else Ok None) with
  | Ok r => r
  | Raise _ => None
  end.

(** [fetch_countries_by_region]: every error gives [[]]. *)
Definition fetch_countries_by_region (region : string) : list pydict :=
  match (countries <-? http_get (BASE_URL ++ "/region/" ++ region) ;;
         cs <-? py_iter countries ;;
         map_res format_region cs) with
  | Ok l => l
  | Raise _ => []
  end.

(** [fetch_countries_by_code]: every error gives [None]. *)
Definition fetch_countries_by_code (code : string) : option pydict :=
  match (country <-? http_get (BASE_URL ++ "/alpha/" ++ code) ;;
         f <-? format_code country ;;
         Ok (Some f)) with
  | Ok r => r
  | Raise _ => None
  end.

(** [str(e)] *)
Variable exn_str : exn -> string.

(** [GET /countries/] *)
Definition get_all_countries : App.http_response (list pydict) :=
  match fetch_all_countries with
  | Ok l => App.HTTP200 l
  | Raise e => App.HTTPError 502 (exn_str e)
  end.

(** [GET /countries/search]; [Query(..., min_length=1)] refuses an empty
    name with FastAPI's 422. *)
Definition search_countries (name : string) : App.http_response pydict :=
  if String.eqb name "" then App.HTTPError 422 "String should have at least 1 character"
  else match fetch_country_by_name name with
       | Some country =>
           if truthy (JObj country) then App.HTTP200 country
           else App.HTTPError 404 ("Country not found for name: " ++ name)
       | None => App.HTTPError 404 ("Country not found for name: " ++ name)
       end.

(** [GET /countries/region/{region}] *)
Definition get_countries_by_region (region : string)
    : App.http_response (list pydict) :=
  App.HTTP200 (fetch_countries_by_region region).

(** [GET /countries/code/{code}] *)
Definition get_country_by_code (code : string) : App.http_response pydict :=
  match fetch_countries_by_code code with
  | Some country =>
      if truthy (JObj country) then App.HTTP200 country
      else App.HTTPError 404 ("Country not found for code: " ++ code)
  | None => App.HTTPError 404 ("Country not found for code: " ++ code)
  end.

End Service.

End Countries.

(** ** Predicates and sample data of the further properties *)

Module GestureSamples.

Import Gesture.

(** A well-formed hand: 21 landmarks with all three coordinates. *)
Definition hand21 : list landmark :=
  repeat (mkLandmark (Some 0.5) (Some 0.5) (Some 0)) 21.

(** A fitted model trained on seven classes, the last one most probable. *)
Definition seven_class_model : classifier :=
  FittedClassifier (fun _ => Ok [0.1; 0.1; 0.1; 0.1; 0.1; 0.1; 0.4]%Q).

End GestureSamples.

Module DetectionProps.

(** Two detector outcomes that agree on the first detection (or raise the
    same error). *)
Definition same_first {A} (r1 r2 : res (list A)) : Prop :=
  match r1, r2 with
  | Ok l1, Ok l2 => hd_error l1 = hd_error l2
  | Raise e1, Raise e2 => e1 = e2
  | _, _ => False
  end.

End DetectionProps.

Module StoreProps.

Import Storage.

(** The invariant of the identifiers the store hands out: distinct and
    below the next fresh one. *)
Definition ids_ok (s : storage) : Prop :=
  match events_collection s with
  | None => True
  | Some docs =>
      NoDup (map doc_id docs) /\ Forall (fun d => (doc_id d < next_id s)%nat) docs
  end.

(** A connected store holding three events, not in timestamp order. *)
Definition three_docs : list document :=
  [mkDocument 0 (mkEvent "Hello" "Happy" (PFin 0.9) (Some "2024-01-01"));
   mkDocument 1 (mkEvent "Yes" "Sad" (PFin 0.7) (Some "2024-03-01"));
   mkDocument 2 (mkEvent "Hello" "Neutral" (PFin 0.8) (Some "2024-02-01"))].

Definition three_events : storage := mkStorage (Some three_docs) 3.

(** The documents [find({"gesture": gesture})] matches. *)
Definition matching (gesture : string) (docs : list document) : list document :=
  filter (fun d => String.eqb (ev_gesture (doc_event d)) gesture) docs.

(** A server answering every sorted query with the order of [sort_desc]. *)
Definition sorting_server : query := fun l => Ok (sort_desc l).

(** A server answering the same query with ties in reverse natural order. *)
Definition sorting_server_rev : query := fun l => Ok (sort_desc (rev l)).

(** An [ObjectId] parser that knows the string of identifier 3 only. *)
Definition parse_oid (key : string) : res nat :=
  if String.eqb key "3" then Ok 3%nat else Raise OtherError.

End StoreProps.

Module AppProps.

Import Storage App.

(** The timestamp [log_event] records: the request's, unless it is missing
    or empty ([if not event.timestamp]). *)
Definition effective_timestamp (now : string) (ev : event) : string :=
  match timestamp ev with
  | Some t => if String.eqb t "" then now else t
  | None => now
  end.

(** The confidences [not (c < 0 or c > 1)] lets through: the finite values
    of [0, 1], and [nan]. *)
Definition confidence_ok (c : pyfloat) : Prop :=
  match c with
  | PFin q => (0 <= q <= 1)%Q
  | PInf _ => False
  | PNaN => True
  end.

(** What [log_event] accepts. *)
Definition valid_event (ev : event) : Prop :=
  strip_is_empty (gesture ev) = false /\ strip_is_empty (expression ev) = false /\
  confidence_ok (confidence ev).

(** A store object in offline mode. *)
Definition offline : storage := mkStorage None 0.

End AppProps.

Module HUDProps.

Import UI.

(** [max(0.0, min(1.0, confidence))] *)
Definition clamp (c : pyfloat) : pyfloat := py_max (PFin 0) (py_min (PFin 1) c).

End HUDProps.

Module CountrySamples.

Import Countries.

(** A REST Countries entry with a name, a capital and a region only. *)
Definition france : json :=
  JObj [("name", JObj [("common", JStr "France"); ("official", JStr "French Republic")]);
        ("capital", JArr [JStr "Paris"]); ("region", JStr "Europe")].

End CountrySamples.

(** ** Lemmas on the monad and comparisons *)

Lemma Qltb_true (x y : Q) : Qltb x y = true <-> (x < y)%Q.
Proof.
  unfold Qltb. rewrite Bool.negb_true_iff. split; intro H.
  - apply Qnot_le_lt. intro Hle. apply Qle_bool_iff in Hle. congruence.
  - destruct (Qle_bool y x) eqn:E; [|reflexivity].
    apply Qle_bool_iff in E. exfalso. apply (Qlt_not_le x y); assumption.
Qed.

Lemma Qltb_false (x y : Q) : Qltb x y = false <-> ~ (x < y)%Q.
Proof.
  rewrite <- Qltb_true. destruct (Qltb x y); split; congruence.
Qed.

Lemma snd_bind_ok {A B} (m : M A) (f : A -> M B) b :
  snd (bind m f) = Ok b -> exists a, snd m = Ok a /\ snd (f a) = Ok b.
Proof.
  unfold bind. destruct m as [t [a|e]]; simpl; [|discriminate].
  destruct (f a) as [t' r] eqn:Hf; simpl. intro H. exists a.
  split; [reflexivity|]. rewrite Hf. exact H.
Qed.

(** [except Exception: log; return x] turns every exception into [x]. *)
Lemma snd_try_catch_all {A} (m : M A) (x : A) :
  snd (try_except m (fun _ => emit (Log LError) ;;; ret x)) =
  match snd m with Ok a => Ok a | Raise _ => Ok x end.
Proof. unfold try_except. destruct m as [t [a|e]]; reflexivity. Qed.

Module FacialExpressionFacts.

Import FacialExpression.

Lemma catch_lookup_lookup_error (r : res Q) :
  r = Raise IndexError \/ r = Raise AttributeError -> catch_lookup r = Ok 0%Q.
Proof. intros [-> | ->]; reflexivity. Qed.

(** The extractors only raise lookup errors, so they never raise. *)
Lemma mouth_body_raises_lookup sqrt lms e :
  extract_mouth_distance_body sqrt lms = Raise e ->
  e = IndexError \/ e = AttributeError.
Proof.
  unfold extract_mouth_distance_body, rbind, getitem, getattr.
  repeat match goal with
  | |- context [nth_error ?l ?i] => destruct (nth_error l i)
  | |- context [lx ?p] => destruct (lx p)
  | |- context [ly ?p] => destruct (ly p)
  end; simpl; intro H; inversion H; auto.
Qed.

Lemma eye_body_raises_lookup sqrt lms e :
  extract_eye_distance_body sqrt lms = Raise e ->
  e = IndexError \/ e = AttributeError.
Proof.
  unfold extract_eye_distance_body, rbind, getitem, getattr.
  repeat match goal with
  | |- context [nth_error ?l ?i] => destruct (nth_error l i)
  | |- context [lx ?p] => destruct (lx p)
  | |- context [ly ?p] => destruct (ly p)
  end; simpl; intro H; inversion H; auto.
Qed.

Lemma extract_mouth_distance_ok sqrt lms :
  exists m, extract_mouth_distance sqrt lms = Ok m.
Proof.
  unfold extract_mouth_distance.
  destruct (extract_mouth_distance_body sqrt lms) as [m|e] eqn:H.
  - exists m; reflexivity.
  - exists 0%Q. destruct (mouth_body_raises_lookup _ _ _ H) as [-> | ->];
      reflexivity.
Qed.

Lemma extract_eye_distance_ok sqrt lms :
  exists e, extract_eye_distance sqrt lms = Ok e.
Proof.
  unfold extract_eye_distance.
  destruct (extract_eye_distance_body sqrt lms) as [m|e] eqn:H.
  - exists m; reflexivity.
  - exists 0%Q. destruct (eye_body_raises_lookup _ _ _ H) as [-> | ->];
      reflexivity.
Qed.

Lemma recognize_face sqrt (image : Type) cvt proc (img rgb : image) lms rest m e :
  cvt img = Ok rgb -> proc rgb = Ok (lms :: rest) ->
  extract_mouth_distance sqrt lms = Ok m ->
  extract_eye_distance sqrt lms = Ok e ->
  snd (recognize sqrt true image cvt proc img) = Ok (classify_expression m e).
Proof.
  intros Hc Hp Hm He. unfold recognize. simpl.
  rewrite Hc. simpl. rewrite Hp. simpl. rewrite Hm. simpl. rewrite He.
  reflexivity.
Qed.

Lemma recognize_no_face sqrt (image : Type) cvt proc (img rgb : image) :
  cvt img = Ok rgb -> proc rgb = Ok [] ->
  snd (recognize sqrt true image cvt proc img) = Ok ("Unknown", 0%Q).
Proof.
  intros Hc Hp. unfold recognize. simpl. rewrite Hc. simpl. rewrite Hp.
  reflexivity.
Qed.

End FacialExpressionFacts.

Ltac qltb_cases :=
  repeat match goal with
  | |- context [Qltb ?x ?y] =>
      let E := fresh "E" in
      destruct (Qltb x y) eqn:E;
      [apply Qltb_true in E | apply Qltb_false in E]
  end.

Module FacialExpressionTable.

Import FacialExpression FacialExpressionFacts.

Lemma classify_expression_table (m e : Q) :
  let r := classify_expression m e in
  ((0.02 < m /\ 0.01 < e)%Q -> r = ("Happy", 0.85%Q)) /\
  (~ (0.02 < m /\ 0.01 < e)%Q -> (m < 0.01 /\ e < 0.008)%Q ->
     r = ("Sad", 0.80%Q)) /\
  (~ (0.02 < m /\ 0.01 < e)%Q -> ~ (m < 0.01 /\ e < 0.008)%Q ->
     (0.015 < m /\ e < 0.009)%Q -> r = ("Angry", 0.75%Q)) /\
  (~ (0.02 < m /\ 0.01 < e)%Q -> ~ (m < 0.01 /\ e < 0.008)%Q ->
     ~ (0.015 < m /\ e < 0.009)%Q -> r = ("Neutral", 0.90%Q)).
Proof.
  unfold classify_expression. qltb_cases; simpl;
    repeat split; intros; try reflexivity; exfalso; tauto.
Qed.

(** Claim C1 (counterexample). On a detected face whose mouth ratio is
    below 0.05 and whose eye distance is 0.1, the specification's table
    gives ("Sad", 0.75), but [recognize] returns ("Happy", 0.85): the code
    uses thresholds 0.02/0.01 for Happy, not 0.15. *)
Lemma C1_counterexample :
  exists m e,
    extract_mouth_distance exact_sqrt c1_face = Ok m /\
    extract_eye_distance exact_sqrt c1_face = Ok e /\
    spec_expression_table m e = ("Sad", 0.75%Q) /\
    snd (recognize exact_sqrt true (list (list landmark))
           (fun i => Ok i) (fun i => Ok i) [c1_face])
      = Ok ("Happy", 0.85%Q).
Proof.
  eexists; eexists.
  split; [vm_compute; reflexivity|].
  split; [vm_compute; reflexivity|].
  split; vm_compute; reflexivity.
Qed.

(** Claim C1 (amended). When a face is detected, with mouth ratio [m] and
    eye distance [e] computed from it, [recognize] returns ("Happy", 0.85)
    if m > 0.02 and e > 0.01; otherwise ("Sad", 0.80) if m < 0.01 and
    e < 0.008; otherwise ("Angry", 0.75) if m > 0.015 and e < 0.009;
    otherwise ("Neutral", 0.90). When no face is detected it returns
    ("Unknown", 0.0). *)
Theorem C1_recognize_table (sqrt : Q -> Q) (image : Type)
    (cvt : image -> res image) (proc : image -> res (list (list landmark)))
    (img rgb : image) (faces : list (list landmark)) :
  cvt img = Ok rgb -> proc rgb = Ok faces ->
  let r := snd (recognize sqrt true image cvt proc img) in
  match faces with
  | [] => r = Ok ("Unknown", 0%Q)
  | lms :: _ =>
      forall m e,
      extract_mouth_distance sqrt lms = Ok m ->
      extract_eye_distance sqrt lms = Ok e ->
      ((0.02 < m /\ 0.01 < e)%Q -> r = Ok ("Happy", 0.85%Q)) /\
      (~ (0.02 < m /\ 0.01 < e)%Q -> (m < 0.01 /\ e < 0.008)%Q ->
         r = Ok ("Sad", 0.80%Q)) /\
      (~ (0.02 < m /\ 0.01 < e)%Q -> ~ (m < 0.01 /\ e < 0.008)%Q ->
         (0.015 < m /\ e < 0.009)%Q -> r = Ok ("Angry", 0.75%Q)) /\
      (~ (0.02 < m /\ 0.01 < e)%Q -> ~ (m < 0.01 /\ e < 0.008)%Q ->
         ~ (0.015 < m /\ e < 0.009)%Q -> r = Ok ("Neutral", 0.90%Q))
  end.
Proof.
  intros Hc Hp r. subst r. destruct faces as [|lms rest].
  - exact (recognize_no_face sqrt image cvt proc img rgb Hc Hp).
  - intros m e Hm He.
    rewrite (recognize_face sqrt image cvt proc img rgb lms rest m e Hc Hp Hm He).
    destruct (classify_expression_table m e) as (H1 & H2 & H3 & H4).
    repeat split; intros; f_equal; auto.
Qed.

Lemma C1_recognize_table_witness :
  snd (recognize exact_sqrt true (list (list landmark))
         (fun i => Ok i) (fun i => Ok i) [c1_face]) = Ok ("Happy", 0.85%Q).
Proof.
  destruct (C1_recognize_table exact_sqrt (list (list landmark))
              (fun i => Ok i) (fun i => Ok i) [c1_face] [c1_face] [c1_face]
              eq_refl eq_refl (1500000 # 50002500) 0.1) as [H _];
    [vm_compute; reflexivity | vm_compute; reflexivity |].
  apply H. split; vm_compute; reflexivity.
Defined.

(** Claim C10. When a face is detected but the lookups of both extractors
    fail with an index or attribute error, both ratios are 0.0 and
    [recognize] returns ("Sad", 0.80), not the "Unknown" sentinel. *)
Theorem C10_lookup_failure_is_sad (sqrt : Q -> Q) (image : Type)
    (cvt : image -> res image) (proc : image -> res (list (list landmark)))
    (img rgb : image) (lms : list landmark) (rest : list (list landmark)) :
  cvt img = Ok rgb -> proc rgb = Ok (lms :: rest) ->
  (extract_mouth_distance_body sqrt lms = Raise IndexError \/
   extract_mouth_distance_body sqrt lms = Raise AttributeError) ->
  (extract_eye_distance_body sqrt lms = Raise IndexError \/
   extract_eye_distance_body sqrt lms = Raise AttributeError) ->
  extract_mouth_distance sqrt lms = Ok 0%Q /\
  extract_eye_distance sqrt lms = Ok 0%Q /\
  snd (recognize sqrt true image cvt proc img) = Ok ("Sad", 0.80%Q).
Proof.
  intros Hc Hp Hm He.
  assert (Hm0 : extract_mouth_distance sqrt lms = Ok 0%Q)
    by (apply catch_lookup_lookup_error; exact Hm).
  assert (He0 : extract_eye_distance sqrt lms = Ok 0%Q)
    by (apply catch_lookup_lookup_error; exact He).
  split; [exact Hm0|]. split; [exact He0|].
  rewrite (recognize_face sqrt image cvt proc img rgb lms rest 0 0 Hc Hp Hm0 He0).
  reflexivity.
Qed.

Lemma C10_lookup_failure_is_sad_witness :
  extract_mouth_distance_body exact_sqrt short_face = Raise IndexError /\
  extract_eye_distance_body exact_sqrt short_face = Raise IndexError /\
  snd (recognize exact_sqrt true (list (list landmark))
         (fun i => Ok i) (fun i => Ok i) [short_face]) = Ok ("Sad", 0.80%Q).
Proof.
  split; [vm_compute; reflexivity|]. split; [vm_compute; reflexivity|].
  apply (C10_lookup_failure_is_sad exact_sqrt (list (list landmark))
           (fun i => Ok i) (fun i => Ok i) [short_face] [short_face]
           short_face []); [reflexivity | reflexivity | left | left];
    vm_compute; reflexivity.
Defined.

End FacialExpressionTable.

Module GestureFacts.

Import Gesture.

Lemma flatten_landmarks_length lms fs :
  flatten_landmarks lms = Ok fs -> length fs = (3 * length lms)%nat.
Proof.
  revert fs. induction lms as [|l lms IH]; simpl; intros fs H.
  - inversion H; reflexivity.
  - destruct (lx l), (ly l), (lz l); simpl in H; try discriminate.
    destruct (flatten_landmarks lms) as [fs'|]; simpl in H; try discriminate.
    inversion H; subst; simpl. rewrite (IH fs' eq_refl). lia.
Qed.

Definition well_formed (l : landmark) : Prop :=
  exists x y z, l = mkLandmark (Some x) (Some y) (Some z).

Lemma flatten_landmarks_well_formed lms :
  Forall well_formed lms -> exists fs, flatten_landmarks lms = Ok fs.
Proof.
  induction 1 as [|l lms Hl _ [fs IH]]; simpl.
  - exists []; reflexivity.
  - destruct Hl as (x & y & z & ->). simpl. rewrite IH. simpl.
    eexists; reflexivity.
Qed.

Lemma extract_landmarks_some lms fs :
  flatten_landmarks lms = Ok fs -> length fs = 63%nat ->
  snd (extract_landmarks (Some lms)) = Ok (Some fs).
Proof.
  intros Hf Hl. unfold extract_landmarks. simpl. rewrite Hf. simpl.
  rewrite Hl. reflexivity.
Qed.

Lemma extract_landmarks_total h :
  exists o, snd (extract_landmarks h) = Ok o /\
            (forall fs, o = Some fs -> length fs = 63%nat).
Proof.
  unfold extract_landmarks. destruct h as [lms|].
  - simpl. destruct (flatten_landmarks lms) as [fs|e] eqn:Hf; simpl.
    + destruct (Nat.eqb (length fs) 63) eqn:Hl; simpl.
      * exists (Some fs). split; [reflexivity|].
        intros fs' H; inversion H; subst. apply Nat.eqb_eq; exact Hl.
      * exists None. split; [reflexivity|discriminate].
    + exists None. split; [reflexivity|discriminate].
  - exists None. split; [reflexivity|discriminate].
Qed.

Lemma fold_qmax_step_in rest best bi i :
  let '(c', _, _) := fold_left qmax_step rest (best, bi, i) in
  c' = best \/ In c' rest.
Proof.
  revert best bi i. induction rest as [|p rest IH]; intros best bi i.
  - simpl. left; reflexivity.
  - cbn [fold_left].
    change (qmax_step (best, bi, i) p)
      with (if Qltb best p then (p, i, S i) else (best, bi, S i)).
    destruct (Qltb best p).
    + specialize (IH p i (S i)).
      destruct (fold_left qmax_step rest (p, i, S i)) as [[c' ?] ?].
      destruct IH as [-> | H]; right; [left; reflexivity | right; exact H].
    + specialize (IH best bi (S i)).
      destruct (fold_left qmax_step rest (best, bi, S i)) as [[c' ?] ?].
      destruct IH as [-> | H]; [left; reflexivity | right; right; exact H].
Qed.

Lemma max_argmax_in ps c i : max_argmax ps = Ok (c, i) -> In c ps.
Proof.
  destruct ps as [|p rest]; simpl; [discriminate|].
  pose proof (fold_qmax_step_in rest p 0 1) as H.
  destruct (fold_left qmax_step rest (p, 0%nat, 1%nat)) as [[c' k] j].
  intro E; inversion E; subst.
  destruct H as [-> | H]; [left; reflexivity | right; exact H].
Qed.

Lemma getitem_in {A} (xs : list A) i a : getitem xs i = Ok a -> In a xs.
Proof.
  unfold getitem. destruct (nth_error xs i) eqn:E; intro H; inversion H; subst.
  eapply nth_error_In; eassumption.
Qed.

End GestureFacts.

Module RecognitionInvariants.

Import GestureFacts.

Ltac sentinel_in_vocabulary :=
  split; [unfold gesture_vocabulary, expression_vocabulary; simpl; tauto
         | split; discriminate].

Lemma gesture_recognize_post cv2 image cvt shape proc self (img : image) :
  proba_contract self ->
  exists l c,
    snd (Gesture.recognize cv2 image cvt shape proc self img) = Ok (l, c) /\
    In l gesture_vocabulary /\ (0 <= c <= 1)%Q.
Proof.
  intro Hcon. unfold Gesture.recognize. rewrite snd_try_catch_all.
  match goal with |- context [match snd ?b with _ => _ end] =>
    destruct (snd b) as [[l c]|e] eqn:E end.
  2: do 2 eexists; split; [reflexivity|]; sentinel_in_vocabulary.
  exists l, c. split; [reflexivity|].
  destruct (Gesture.rec_classifier self) as [clf|] eqn:Hclf;
    [destruct (Gesture.rec_scaler self) as [sc|] eqn:Hsc|].
  2,3: simpl in E; inversion E; subst; sentinel_in_vocabulary.
  apply snd_bind_ok in E as (rgb & _ & E).
  apply snd_bind_ok in E as (u & _ & E).
  apply snd_bind_ok in E as (u' & _ & E).
  apply snd_bind_ok in E as (results & _ & E).
  destruct results as [|lm ls].
  { simpl in E; inversion E; subst; sentinel_in_vocabulary. }
  apply snd_bind_ok in E as (u2 & _ & E).
  apply snd_bind_ok in E as (features & _ & E).
  destruct features as [fs|].
  2: { simpl in E; inversion E; subst; sentinel_in_vocabulary. }
  apply snd_bind_ok in E as (u3 & _ & E).
  apply snd_bind_ok in E as (scaled & _ & E).
  apply snd_bind_ok in E as (u4 & _ & E).
  apply snd_bind_ok in E as (ps & Hps & E).
  apply snd_bind_ok in E as ([conf idx] & Hbest & E).
  apply snd_bind_ok in E as (label & Hlabel & E).
  simpl in E, Hps, Hbest, Hlabel. inversion E; subst.
  split.
  - unfold gesture_vocabulary. apply in_or_app. left.
    exact (getitem_in _ _ _ Hlabel).
  - pose proof (Hcon clf Hclf _ _ Hps) as Hall.
    rewrite Forall_forall in Hall. apply Hall.
    exact (max_argmax_in _ _ _ Hbest).
Qed.

Lemma classify_expression_post m e :
  let '(l, c) := FacialExpression.classify_expression m e in
  In l expression_vocabulary /\ (0 <= c <= 1)%Q.
Proof.
  unfold FacialExpression.classify_expression.
  repeat match goal with |- context [if ?b then _ else _] => destruct b end;
    sentinel_in_vocabulary.
Qed.

Lemma expression_recognize_post sqrt cv2 image cvt proc (img : image) :
  exists l c,
    snd (FacialExpression.recognize sqrt cv2 image cvt proc img) = Ok (l, c) /\
    In l expression_vocabulary /\ (0 <= c <= 1)%Q.
Proof.
  unfold FacialExpression.recognize. rewrite snd_try_catch_all.
  match goal with |- context [match snd ?b with _ => _ end] =>
    destruct (snd b) as [[l c]|e] eqn:E end.
  2: do 2 eexists; split; [reflexivity|]; sentinel_in_vocabulary.
  exists l, c. split; [reflexivity|].
  destruct cv2; cbn [negb] in E.
  2: simpl in E; inversion E; subst; sentinel_in_vocabulary.
  apply snd_bind_ok in E as (rgb & _ & E).
  apply snd_bind_ok in E as (u & _ & E).
  apply snd_bind_ok in E as (results & _ & E).
  destruct results as [|lm ls].
  { simpl in E; inversion E; subst; sentinel_in_vocabulary. }
  apply snd_bind_ok in E as (m & _ & E).
  apply snd_bind_ok in E as (e & _ & E).
  simpl in E. injection E as E.
  pose proof (classify_expression_post m e) as H.
  rewrite E in H. exact H.
Qed.

(** Claim C4. For every image and every behaviour of the collaborators
    (conversion, shape, landmark detection, scaler and classifier errors),
    [recognize] of either modality returns normally a label of its closed
    vocabulary (its label list and the sentinels "No Hand", "Unknown",
    "Error" for gestures, "Error" for expressions) and a confidence in
    [0, 1]; for gestures this assumes the classifier's [predict_proba]
    yields probabilities in [0, 1]. *)
Theorem C4_recognize_in_vocabulary :
  (forall cv2 image cvt shape proc self (img : image),
     proba_contract self ->
     exists l c,
       snd (Gesture.recognize cv2 image cvt shape proc self img) = Ok (l, c) /\
       In l gesture_vocabulary /\ (0 <= c <= 1)%Q) /\
  (forall sqrt cv2 image cvt proc (img : image),
     exists l c,
       snd (FacialExpression.recognize sqrt cv2 image cvt proc img) = Ok (l, c) /\
       In l expression_vocabulary /\ (0 <= c <= 1)%Q).
Proof.
  split; [exact gesture_recognize_post | exact expression_recognize_post].
Qed.

(** A fitted model that answers [[0.25; 0.75]] on every row. *)
Definition two_class_model : Gesture.recognizer :=
  Gesture.mkRecognizer
    (Some (Gesture.FittedClassifier (fun _ => Ok [0.25; 0.75]%Q)))
    (Some (Gesture.FittedScaler (fun x => Ok x))).

Lemma C4_recognize_in_vocabulary_witness :
  proba_contract two_class_model /\
  exists l c,
    snd (Gesture.recognize true (list (list landmark)) (fun i => Ok i)
           (fun _ => Ok tt) (fun i => Ok i) two_class_model
           [repeat (mkLandmark (Some 0.5) (Some 0.5) (Some 0)) 21]%Q)
      = Ok (l, c) /\ In l gesture_vocabulary /\ (0 <= c <= 1)%Q.
Proof.
  assert (H : proba_contract two_class_model).
  { intros clf Hc x ps Hp. simpl in Hc. inversion Hc; subst.
    simpl in Hp. inversion Hp; subst.
    repeat constructor; vm_compute; discriminate. }
  split; [exact H|].
  exact (proj1 C4_recognize_in_vocabulary true (list (list landmark))
           (fun i => Ok i) (fun _ => Ok tt) (fun i => Ok i) two_class_model
           _ H).
Defined.

End RecognitionInvariants.

Module GestureExtraction.

Import GestureFacts.

Lemma extract_landmarks_wrong_arity lms :
  length lms <> 21%nat -> snd (Gesture.extract_landmarks (Some lms)) = Ok None.
Proof.
  intro Hn. unfold Gesture.extract_landmarks. simpl.
  destruct (Gesture.flatten_landmarks lms) as [fs|e] eqn:Hf; simpl;
    [|reflexivity].
  apply flatten_landmarks_length in Hf.
  destruct (Nat.eqb (length fs) 63) eqn:Hl; simpl; [|reflexivity].
  apply Nat.eqb_eq in Hl. lia.
Qed.

(** Claim C5. For 21 hand landmarks each carrying x, y and z,
    [extract_landmarks] returns a feature row of exactly 63 values; a
    missing landmark set, or one of another size, gives [None]; it never
    raises, and every row it returns has 63 values. *)
Theorem C5_extract_landmarks_arity :
  (forall lms, length lms = 21%nat -> Forall well_formed lms ->
     exists fs, snd (Gesture.extract_landmarks (Some lms)) = Ok (Some fs) /\
                length fs = 63%nat) /\
  snd (Gesture.extract_landmarks None) = Ok None /\
  (forall lms, length lms <> 21%nat ->
     snd (Gesture.extract_landmarks (Some lms)) = Ok None) /\
  (forall h, exists o, snd (Gesture.extract_landmarks h) = Ok o /\
     (forall fs, o = Some fs -> length fs = 63%nat)).
Proof.
  split; [|split; [reflexivity|split]].
  - intros lms Hn Hw.
    destruct (flatten_landmarks_well_formed lms Hw) as [fs Hf].
    pose proof (flatten_landmarks_length _ _ Hf) as Hl. rewrite Hn in Hl.
    exists fs. split; [apply extract_landmarks_some; assumption | exact Hl].
  - exact extract_landmarks_wrong_arity.
  - exact extract_landmarks_total.
Qed.

Lemma C5_extract_landmarks_arity_witness :
  exists fs,
    snd (Gesture.extract_landmarks
           (Some (repeat (mkLandmark (Some 0.5) (Some 0.25) (Some 0)) 21)))
      = Ok (Some fs) /\ length fs = 63%nat.
Proof.
  apply (proj1 C5_extract_landmarks_arity); [reflexivity|].
  repeat constructor; do 3 eexists; reflexivity.
Defined.

End GestureExtraction.

Module RecognitionPipeline.

Import GestureFacts.

(** A hand of 20 landmarks: one short of the expected 21. *)
Definition hand20 : list landmark :=
  repeat (mkLandmark (Some 0.5) (Some 0.5) (Some 0)) 20.

(** Claim C6 (counterexample). With a loaded model, a detected hand whose
    landmarks the extractor rejects yields ("No Hand", 0.0), not
    ("Unknown", 0.0), and the classifier is not called. *)
Lemma C6_counterexample :
  Gesture.recognize true (list (list landmark)) (fun i => Ok i)
    (fun _ => Ok tt) (fun i => Ok i) RecognitionInvariants.two_class_model
    [hand20]
  = ([Call LandmarkProvider; Call FeatureExtractor; Log LWarning],
     Ok ("No Hand", 0%Q)) /\
  "No Hand" <> "Unknown".
Proof. split; [vm_compute; reflexivity | discriminate]. Qed.

(** The extractor only logs: it calls no other collaborator. *)
Lemma extract_landmarks_logs_only h :
  Forall (fun ev => exists l, ev = Log l) (fst (Gesture.extract_landmarks h)).
Proof.
  unfold Gesture.extract_landmarks. destruct h as [lms|]; simpl; [|constructor].
  destruct (Gesture.flatten_landmarks lms); simpl;
    [destruct (Nat.eqb (length a) 63); simpl|];
    repeat constructor; eexists; reflexivity.
Qed.

(** Claim C6 (amended). With classifier and scaler loaded, [recognize]
    short-circuits to ("No Hand", 0.0) after calling only the landmark
    provider when no hand is found; returns ("No Hand", 0.0) without calling
    scaler or classifier when the extractor returns [None]; and otherwise
    returns the classifier's (label, probability), or ("Error", 0.0) when
    scaling or classification raises. Without classifier or scaler it
    returns ("Unknown", 0.0) before calling the landmark provider. The
    expression recognizer returns ("Unknown", 0.0) after calling only the
    landmark provider when no face is found. *)
Theorem C6_pipeline_order (cv2 : bool) (image : Type)
    (cvt : image -> res image) (shape : image -> res unit)
    (proc : image -> res (list (list landmark)))
    (self : Gesture.recognizer) (img rgb : image)
    (results : list (list landmark)) :
  (if cv2 then cvt img else Ok img) = Ok rgb ->
  shape img = Ok tt -> proc rgb = Ok results ->
  (forall (sqrt : Q -> Q) (face_proc : image -> res (list (list landmark))),
     cvt img = Ok rgb -> face_proc rgb = Ok [] ->
     FacialExpression.recognize sqrt true image cvt face_proc img
       = ([Call LandmarkProvider], Ok ("Unknown", 0%Q))) /\
  (let r := Gesture.recognize cv2 image cvt shape proc self img in
  match Gesture.rec_classifier self, Gesture.rec_scaler self with
  | Some clf, Some sc =>
      match results with
      | [] => r = ([Call LandmarkProvider], Ok ("No Hand", 0%Q))
      | lms :: _ =>
          (snd (Gesture.extract_landmarks (Some lms)) = Ok None ->
             snd r = Ok ("No Hand", 0%Q) /\
             ~ In (Call FeatureScaler) (fst r) /\
             ~ In (Call ModelClassifier) (fst r)) /\
          (forall fs, snd (Gesture.extract_landmarks (Some lms)) = Ok (Some fs) ->
             snd r = match gesture_classify sc clf fs with
                     | Ok out => Ok out
                     | Raise _ => Ok ("Error", 0%Q)
                     end)
      end
  | _, _ => r = ([Log LWarning], Ok ("Unknown", 0%Q))
  end).
Proof.
  intros Hrgb Hshape Hproc. split.
  { intros sqrt face_proc Hc Hp. unfold FacialExpression.recognize. simpl.
    rewrite Hc. simpl. rewrite Hp. reflexivity. }
  intro r. subst r. unfold Gesture.recognize.
  destruct (Gesture.rec_classifier self) as [clf|];
    [destruct (Gesture.rec_scaler self) as [sc|]|]; try reflexivity.
  replace (if cv2 then lift (cvt img) else ret img) with (@lift image (Ok rgb))
    by (destruct cv2; unfold lift, ret; rewrite <- Hrgb; reflexivity).
  cbn -[Gesture.extract_landmarks]. rewrite Hshape. simpl. rewrite Hproc.
  destruct results as [|lms rest]; [reflexivity|].
  simpl. destruct (Gesture.extract_landmarks (Some lms)) as [te [o|e]] eqn:Hx.
  2: { split; intros; discriminate. }
  split.
  - intro H. simpl in H. inversion H; subst. simpl.
    rewrite app_nil_r. split; [reflexivity|].
    pose proof (extract_landmarks_logs_only (Some lms)) as Hlog.
    rewrite Hx in Hlog. simpl in Hlog. rewrite Forall_forall in Hlog.
    split; intro Hin; simpl in Hin;
      destruct Hin as [Hin|[Hin|Hin]]; try discriminate Hin;
      destruct (Hlog _ Hin) as [l Hl]; discriminate Hl.
  - intros fs H. simpl in H. inversion H; subst. simpl.
    unfold gesture_classify, rbind.
    destruct (Gesture.transform sc fs) as [scaled|]; simpl; [|reflexivity].
    destruct (Gesture.predict_proba clf scaled) as [ps|]; simpl;
      [|reflexivity].
    destruct (Gesture.max_argmax ps) as [[c i]|]; simpl; [|reflexivity].
    destruct (getitem Gesture.GESTURES i); reflexivity.
Qed.

Lemma C6_pipeline_order_witness :
  Gesture.recognize true (list (list landmark)) (fun i => Ok i)
    (fun _ => Ok tt) (fun i => Ok i) RecognitionInvariants.two_class_model []
  = ([Call LandmarkProvider], Ok ("No Hand", 0%Q)).
Proof.
  exact (proj2 (C6_pipeline_order true (list (list landmark)) (fun i => Ok i)
                  (fun _ => Ok tt) (fun i => Ok i)
                  RecognitionInvariants.two_class_model [] [] []
                  eq_refl eq_refl eq_refl)).
Defined.

End RecognitionPipeline.

Module ModelStore.

(** Claim C3 (counterexample). When the model file exists but unpickling
    fails, [load_model] logs the error and re-raises it; it does not fall
    back to the default model. *)
Lemma C3_counterexample :
  Gesture.load_model true (Raise UnpicklingError)
  = ([Log LError], Raise UnpicklingError) /\
  snd (Gesture.load_model true (Raise UnpicklingError))
  <> Ok (Gesture.mkRecognizer
           (Some (Gesture.RandomForestClassifier 100 42))
           (Some Gesture.StandardScaler)).
Proof. split; [reflexivity | discriminate]. Qed.

(** Claim C3 (amended). If the model file exists and unpickling raises,
    [load_model] logs the error and re-raises the same exception (so the
    constructor raises too); if it unpickles, the classifier and scaler are
    the stored ones; only when no file exists does it build the untrained
    [RandomForestClassifier(n_estimators=100, random_state=42)] with an
    unfit [StandardScaler]. *)
Theorem C3_load_model_policy :
  (forall e, Gesture.load_model true (Raise e) = ([Log LError], Raise e)) /\
  (forall data, Gesture.load_model true (Ok data)
     = ([Log LInfo], Ok (Gesture.mkRecognizer (Gesture.data_classifier data)
                                              (Gesture.data_scaler data)))) /\
  (forall pickled, Gesture.load_model false pickled
     = ([Log LWarning],
        Ok (Gesture.mkRecognizer (Some (Gesture.RandomForestClassifier 100 42))
                                 (Some Gesture.StandardScaler)))).
Proof. repeat split; reflexivity. Qed.

End ModelStore.

Module SessionClose.

(** Claim C9. Closing a recognizer of either modality twice returns
    normally both times, whatever the landmark provider's [close] does; a
    provider error, such as MediaPipe's on an already-closed graph, is
    logged and not propagated. *)
Theorem C9_close_twice (hands_close face_close : bool -> res unit) :
  (let (r1, closed1) := Gesture.close hands_close false in
   let (r2, _) := Gesture.close hands_close closed1 in
   snd r1 = Ok tt /\ snd r2 = Ok tt /\
   (forall e, hands_close true = Raise e -> fst r2 = [Log LError])) /\
  (let (r1, closed1) := FacialExpression.close face_close false in
   let (r2, _) := FacialExpression.close face_close closed1 in
   snd r1 = Ok tt /\ snd r2 = Ok tt /\
   (forall e, face_close true = Raise e -> fst r2 = [Log LError])).
Proof.
  unfold Gesture.close, FacialExpression.close, try_except, lift. simpl.
  split; (split; [|split]);
    try (intros e He; rewrite He; reflexivity);
    match goal with |- context [?f ?b] =>
      match type of f with bool -> res unit => destruct (f b) as [[]|] end end;
    reflexivity.
Qed.

Lemma C9_close_twice_witness :
  (let (r1, closed1) := Gesture.close mediapipe_close false in
   let (r2, _) := Gesture.close mediapipe_close closed1 in
   snd r1 = Ok tt /\ snd r2 = Ok tt /\
   (forall e, mediapipe_close true = Raise e -> fst r2 = [Log LError])).
Proof. exact (proj1 (C9_close_twice mediapipe_close mediapipe_close)). Defined.

End SessionClose.

Module SortFacts.

Import Storage StoreProps.

Lemma string_compare_ge_trans x y z :
  String.compare x y <> Lt -> String.compare y z <> Lt ->
  String.compare x z <> Lt.
Proof.
  revert y z. induction x as [|a x IH]; intros [|b y] [|c z]; simpl;
    try congruence.
  destruct (Ascii.compare a b) eqn:E1; [| congruence |].
  - apply Ascii.compare_eq_iff in E1. subst b.
    destruct (Ascii.compare a c); [apply IH | congruence | congruence].
  - destruct (Ascii.compare b c) eqn:E2; [| congruence |].
    + apply Ascii.compare_eq_iff in E2. subst c. rewrite E1. congruence.
    + unfold Ascii.compare in *. apply N.compare_gt_iff in E1, E2.
      rewrite (proj2 (N.compare_gt_iff _ _)) by lia. congruence.
Qed.

Lemma key_ge_trans a b c :
  key_ge a b = true -> key_ge b c = true -> key_ge a c = true.
Proof.
  destruct a as [x|], b as [y|], c as [z|]; simpl; try congruence.
  intros H1 H2.
  destruct (String.compare x z) eqn:E; try reflexivity. exfalso.
  apply (string_compare_ge_trans x y z); [| | exact E];
    [destruct (String.compare x y) | destruct (String.compare y z)]; congruence.
Qed.

#[local] Instance newer_first_trans : Transitive newer_first.
Proof. intros a b c. apply key_ge_trans. Qed.

Lemma key_ge_total a b : key_ge a b = false -> key_ge b a = true.
Proof.
  destruct a as [x|], b as [y|]; simpl; try discriminate; auto.
  rewrite (String.compare_antisym y x).
  destruct (String.compare x y); simpl; congruence.
Qed.

Lemma insert_desc_hdrel y d l :
  HdRel newer_first y l -> newer_first y d ->
  HdRel newer_first y (insert_desc d l).
Proof.
  destruct l as [|z zs]; simpl; intros H1 H2; [constructor; exact H2|].
  destruct (key_ge (ts_key d) (ts_key z)); constructor;
    [exact H2 | inversion H1; assumption].
Qed.

Lemma insert_desc_sorted d l :
  Sorted newer_first l -> Sorted newer_first (insert_desc d l).
Proof.
  induction l as [|y ys IH]; simpl; intros H; [repeat constructor|].
  destruct (key_ge (ts_key d) (ts_key y)) eqn:E.
  - constructor; [exact H | constructor; exact E].
  - apply Sorted_inv in H as [H1 H2]. constructor; [apply IH; exact H1|].
    apply insert_desc_hdrel; [exact H2|]. apply key_ge_total. exact E.
Qed.

Lemma sort_desc_sorted l : Sorted newer_first (sort_desc l).
Proof. induction l; simpl; auto using insert_desc_sorted. Qed.

Lemma insert_desc_perm d l : Permutation (insert_desc d l) (d :: l).
Proof.
  induction l as [|y ys IH]; simpl; [reflexivity|].
  destruct (key_ge (ts_key d) (ts_key y)); [reflexivity|].
  eapply perm_trans; [apply perm_skip, IH | apply perm_swap].
Qed.

Lemma sort_desc_perm l : Permutation (sort_desc l) l.
Proof.
  induction l as [|x xs IH]; simpl; [reflexivity|].
  eapply perm_trans; [apply insert_desc_perm | apply perm_skip, IH].
Qed.

(** [sort_desc] gives a sorted answer. *)
Lemma sorting_server_sorted : answers_sorted sorting_server.
Proof.
  intros l r H. injection H as <-. split.
  - symmetry. apply sort_desc_perm.
  - apply sort_desc_sorted.
Qed.

Lemma sorting_server_rev_sorted : answers_sorted sorting_server_rev.
Proof.
  intros l r H. injection H as <-. split.
  - symmetry. eapply perm_trans; [apply sort_desc_perm|].
    symmetry. apply Permutation_rev.
  - apply sort_desc_sorted.
Qed.

(** In a sorted answer every document is at least as new as those after
    it. *)
Lemma sorted_answer_head d rest l :
  sorted_answer l (d :: rest) -> Forall (newer_first d) rest.
Proof.
  intros [_ HS]. apply Sorted_StronglySorted in HS; [|exact newer_first_trans].
  apply StronglySorted_inv in HS as [_ H]. exact H.
Qed.

(** A document strictly newer than all the others comes first in every
    sorted answer. *)
Lemma sorted_answer_newest (docs : list document) (x : document) r :
  Forall (fun d => key_gt (ts_key x) (ts_key d) = true) docs ->
  sorted_answer (docs ++ [x]) r -> exists rest, r = x :: rest.
Proof.
  intros Hnew Hr. destruct r as [|h t].
  - destruct Hr as [Hp _]. apply Permutation_length in Hp.
    rewrite length_app in Hp. simpl in Hp. lia.
  - assert (Hx : In x (h :: t))
      by (apply (Permutation_in _ (proj1 Hr)); apply in_or_app; right; left;
          reflexivity).
    assert (Hh : In h (docs ++ [x]))
      by (apply (Permutation_in _ (Permutation_sym (proj1 Hr))); left; reflexivity).
    destruct Hx as [<-|Hx]; [eauto|].
    apply in_app_or in Hh as [Hh|[<-|[]]]; [|eauto].
    exfalso. rewrite Forall_forall in Hnew. specialize (Hnew h Hh).
    apply sorted_answer_head in Hr. rewrite Forall_forall in Hr.
    specialize (Hr x Hx). unfold newer_first in Hr. unfold key_gt in Hnew.
    rewrite Hr in Hnew. discriminate.
Qed.

End SortFacts.

Module EventStore.

Import Storage StoreProps SortFacts.

(** Claim C2 (counterexample). In offline mode [insert_event] returns
    [None], whatever the server would answer: no placeholder identifier is
    synthesized. *)
Lemma C2_counterexample :
  ~ exists w id,
      fst (insert_event w offline_store "2026-01-01T00:00:00+00:00"
             (sample_event "2026-01-01T00:00:00+00:00")) = Some id.
Proof. intros [w [id H]]. discriminate H. Qed.

(** Claim C2 (amended). A store whose connection probe failed is offline;
    there [insert_event] returns [None] and persists nothing, [get_events]
    returns the empty list and [clear_events] returns [false], all without
    raising and without changing the store, whatever the server's answers. *)
Theorem C2_offline_store (s : storage) :
  events_collection s = None ->
  (forall w now ev, insert_event w s now ev = (None, s)) /\
  (forall find limit offset, get_events find s limit offset = []) /\
  (forall w, clear_events w s = (false, s)).
Proof.
  intro H. unfold insert_event, get_events, clear_events. rewrite H.
  repeat split.
Qed.

Lemma init_offline (e : exn) existing seed :
  events_collection (init (Raise e) existing seed) = None.
Proof. reflexivity. Qed.

Lemma C2_offline_store_witness :
  events_collection offline_store = None /\
  insert_event Acknowledged offline_store "t" (sample_event "t") = (None, offline_store) /\
  get_events sorting_server offline_store 10 0 = [] /\
  clear_events Acknowledged offline_store = (false, offline_store).
Proof.
  split; [apply init_offline|].
  destruct (C2_offline_store offline_store (init_offline _ _ _)) as (H1 & H2 & H3).
  split; [apply H1|]. split; [apply H2|]. apply H3.
Defined.

(** Claim C7 (counterexample). A connected store already holds an event
    dated 2030; after inserting one dated 2020, both calls answered by the
    server, [get_events] with limit 1 and offset 0 returns the 2030 event,
    not the inserted one. *)
Lemma C7_counterexample :
  let ev := sample_event "2020-01-01T00:00:00+00:00" in
  let s' := snd (insert_event Acknowledged store_2030 "2026-01-01T00:00:00+00:00" ev) in
  fst (insert_event Acknowledged store_2030 "2026-01-01T00:00:00+00:00" ev) = Some 1%nat /\
  get_events sorting_server s' 1 0
  = [mkDocument 0 (sample_event "2030-01-01T00:00:00+00:00")].
Proof. split; vm_compute; reflexivity. Qed.

(** Claim C7 (amended). On a connected store whose server acknowledges the
    insert and answers the listing query (in any order sorted by descending
    timestamp), inserting an event whose timestamp (the caller's, or [now]
    when absent) is strictly later than that of every stored event, then
    listing with limit 1 and offset 0, returns exactly that event, under
    the returned identifier, with the inserted gesture, expression,
    confidence and timestamp. *)
Theorem C7_insert_then_list_newest (find : query) (s : storage)
    (docs : list document) (now : string) (ev : event_doc) :
  events_collection s = Some docs ->
  let ts := match ev_timestamp ev with Some t => t | None => now end in
  Forall (fun d => key_gt (Some ts) (ts_key d) = true) docs ->
  answers_sorted find -> (forall l, exists r, find l = Ok r) ->
  exists d,
    get_events find (snd (insert_event Acknowledged s now ev)) 1 0 = [d] /\
    fst (insert_event Acknowledged s now ev) = Some (doc_id d) /\
    ev_gesture (doc_event d) = ev_gesture ev /\
    ev_expression (doc_event d) = ev_expression ev /\
    ev_confidence (doc_event d) = ev_confidence ev /\
    ev_timestamp (doc_event d) = Some ts.
Proof.
  intros Hs ts Hnew Hsorted Hans. unfold insert_event. rewrite Hs.
  set (ev' := match ev_timestamp ev with
              | Some _ => ev
              | None => mkEvent (ev_gesture ev) (ev_expression ev)
                                (ev_confidence ev) (Some now)
              end).
  assert (Hts : ev_timestamp ev' = Some ts)
    by (subst ev' ts; destruct (ev_timestamp ev) eqn:E; [exact E | reflexivity]).
  set (x := mkDocument (next_id s) ev').
  exists x. unfold get_events. simpl.
  destruct (Hans (app docs [x])) as [r Hr]. rewrite Hr.
  destruct (sorted_answer_newest docs x r) as [rest ->].
  { unfold ts_key at 1. simpl. rewrite Hts. exact Hnew. }
  { exact (Hsorted _ _ Hr). }
  simpl. split; [reflexivity|]. split; [reflexivity|].
  subst x ev' ts. destruct (ev_timestamp ev) eqn:E; simpl;
    repeat split; try reflexivity; exact E.
Qed.

Lemma C7_insert_then_list_newest_witness :
  exists d,
    get_events sorting_server
      (snd (insert_event Acknowledged store_2030 "2031-01-01T00:00:00+00:00"
              (Storage.mkEvent "Help" "Sad" (PFin 0.5) None))) 1 0 = [d] /\
    fst (insert_event Acknowledged store_2030 "2031-01-01T00:00:00+00:00"
           (Storage.mkEvent "Help" "Sad" (PFin 0.5) None)) = Some (doc_id d) /\
    ev_gesture (doc_event d) = "Help" /\
    ev_expression (doc_event d) = "Sad" /\
    ev_confidence (doc_event d) = PFin 0.5 /\
    ev_timestamp (doc_event d) = Some "2031-01-01T00:00:00+00:00".
Proof.
  apply (C7_insert_then_list_newest sorting_server store_2030
           [mkDocument 0 (sample_event "2030-01-01T00:00:00+00:00")]);
    [reflexivity | repeat constructor | exact sorting_server_sorted
    | intros l; eexists; reflexivity].
Defined.

(** Claim C8. [get_events] clamps [limit] into [1, 1000] and [offset] to at
    least 0 before querying: listing with the raw arguments is listing with
    the clamped ones, and never returns more than
    [min(max(limit, 1), 1000)] events, whatever the server answers (a
    failed query gives none); in particular at most one event for
    [limit = 0] and at most 1000 for [limit = 5000]. *)
Theorem C8_get_events_clamped (find : query) (s : storage) (limit offset : Z) :
  let lim := Z.max 1 (Z.min limit 1000) in
  (1 <= lim <= 1000)%Z /\
  get_events find s limit offset = get_events find s lim (Z.max 0 offset) /\
  (length (get_events find s limit offset) <= Z.to_nat lim)%nat /\
  (length (get_events find s 0 offset) <= 1)%nat /\
  (length (get_events find s 5000 offset) <= 1000)%nat.
Proof.
  intro lim.
  assert (Hlen : forall l o, (length (get_events find s l o)
                              <= Z.to_nat (Z.max 1 (Z.min l 1000)))%nat).
  { intros l o. unfold get_events. destruct (events_collection s) as [docs|]; simpl.
    - destruct (find docs); simpl; [rewrite length_firstn|]; lia.
    - lia. }
  split; [subst lim; lia|].
  split.
  - unfold get_events. destruct (events_collection s); [|reflexivity].
    subst lim. cbv zeta.
    replace (Z.max 1 (Z.min (Z.max 1 (Z.min limit 1000)) 1000))
      with (Z.max 1 (Z.min limit 1000)) by lia.
    replace (Z.max 0 (Z.max 0 offset)) with (Z.max 0 offset) by lia.
    reflexivity.
  - split; [apply Hlen|]. split; [apply (Hlen 0%Z) | apply (Hlen 5000%Z)].
Qed.

End EventStore.

(** ** Further properties of the recognizers *)

Module GestureExtras.

Import Gesture GestureFacts GestureSamples.
Local Open Scope list_scope.

Lemma fold_qmax_step_spec rest : forall pre best bi k,
  k = length pre ->
  nth_error pre bi = Some best ->
  Forall (fun p => p <= best)%Q pre ->
  (forall j p, (j < bi)%nat -> nth_error pre j = Some p -> (p < best)%Q) ->
  let '(c, i, k') := fold_left qmax_step rest (best, bi, k) in
  k' = (k + length rest)%nat /\
  nth_error (pre ++ rest) i = Some c /\
  Forall (fun p => p <= c)%Q (pre ++ rest) /\
  (forall j p, (j < i)%nat -> nth_error (pre ++ rest) j = Some p -> (p < c)%Q).
Proof.
  induction rest as [|p rest IH]; intros pre best bi k Hk Hn Hall Hfirst.
  - simpl. rewrite !app_nil_r. repeat split; auto; lia.
  - cbn [fold_left].
    assert (Hbi : (bi < length pre)%nat)
      by (apply nth_error_Some; rewrite Hn; discriminate).
    assert (Hlen : S k = length (pre ++ [p]))
      by (rewrite length_app; simpl; lia).
    replace (pre ++ p :: rest) with ((pre ++ [p]) ++ rest)
      by (rewrite <- app_assoc; reflexivity).
    change (qmax_step (best, bi, k) p)
      with (if Qltb best p then (p, k, S k) else (best, bi, S k)).
    destruct (Qltb best p) eqn:E.
    + apply Qltb_true in E.
      assert (A1 : nth_error (pre ++ [p]) k = Some p)
        by (rewrite nth_error_app2 by lia; rewrite Hk, Nat.sub_diag; reflexivity).
      assert (A2 : Forall (fun q => q <= p)%Q (pre ++ [p])).
      { apply Forall_app. split; [|repeat constructor; apply Qle_refl].
        eapply Forall_impl; [|exact Hall].
        intros q Hq. apply Qlt_le_weak. eapply Qle_lt_trans; [exact Hq|exact E]. }
      assert (A3 : forall j q, (j < k)%nat -> nth_error (pre ++ [p]) j = Some q ->
                               (q < p)%Q).
      { intros j q Hj Hq. rewrite nth_error_app1 in Hq by lia.
        eapply Qle_lt_trans; [|exact E].
        rewrite Forall_forall in Hall. apply Hall.
        eapply nth_error_In; exact Hq. }
      specialize (IH (pre ++ [p]) p k (S k) Hlen A1 A2 A3).
      destruct (fold_left qmax_step rest (p, k, S k)) as [[c i] k'].
      destruct IH as (H0 & H1 & H2 & H3).
      simpl. repeat split; auto. lia.
    + apply Qltb_false in E. apply Qnot_lt_le in E.
      assert (A1 : nth_error (pre ++ [p]) bi = Some best)
        by (rewrite nth_error_app1 by lia; exact Hn).
      assert (A2 : Forall (fun q => q <= best)%Q (pre ++ [p]))
        by (apply Forall_app; split; [exact Hall|repeat constructor; exact E]).
      assert (A3 : forall j q, (j < bi)%nat -> nth_error (pre ++ [p]) j = Some q ->
                               (q < best)%Q).
      { intros j q Hj Hq. rewrite nth_error_app1 in Hq by lia.
        exact (Hfirst j q Hj Hq). }
      specialize (IH (pre ++ [p]) best bi (S k) Hlen A1 A2 A3).
      destruct (fold_left qmax_step rest (best, bi, S k)) as [[c i] k'].
      destruct IH as (H0 & H1 & H2 & H3).
      simpl. repeat split; auto. lia.
Qed.

(** [np.max] and [np.argmax]: on a non-empty array the confidence is the
    largest probability and the index is the first position holding it. *)
Theorem max_argmax_first_maximum (ps : list Q) :
  ps <> [] ->
  exists c i, max_argmax ps = Ok (c, i) /\
    nth_error ps i = Some c /\
    Forall (fun p => p <= c)%Q ps /\
    (forall j p, (j < i)%nat -> nth_error ps j = Some p -> (p < c)%Q).
Proof.
  destruct ps as [|p rest]; [congruence|]. intros _. simpl.
  pose proof (fold_qmax_step_spec rest [p] p 0 1 eq_refl eq_refl
                ltac:(repeat constructor; apply Qle_refl)
                (fun j q Hj _ => ltac:(lia))) as H.
  simpl in H.
  destruct (fold_left qmax_step rest (p, 0%nat, 1%nat)) as [[c i] k].
  destruct H as (_ & H1 & H2 & H3). exists c, i. auto.
Qed.

Lemma max_argmax_first_maximum_witness :
  exists c i, max_argmax [0.2; 0.5; 0.5; 0.1]%Q = Ok (c, i) /\
    nth_error [0.2; 0.5; 0.5; 0.1]%Q i = Some c /\
    Forall (fun p => p <= c)%Q [0.2; 0.5; 0.5; 0.1]%Q /\
    (forall j p, (j < i)%nat -> nth_error [0.2; 0.5; 0.5; 0.1]%Q j = Some p ->
                 (p < c)%Q).
Proof. apply max_argmax_first_maximum. discriminate. Defined.

(** What [recognize] returns once a frame reaches the classifier. *)
Lemma recognize_after_extraction (cv2 : bool) (image : Type) (cvt : image -> res image)
    (shape : image -> res unit) (proc : image -> res (list (list landmark)))
    clf sc (img rgb : image) lms rest fs :
  (if cv2 then cvt img else Ok img) = Ok rgb ->
  shape img = Ok tt -> proc rgb = Ok (lms :: rest) ->
  snd (extract_landmarks (Some lms)) = Ok (Some fs) ->
  snd (recognize cv2 image cvt shape proc
         (mkRecognizer (Some clf) (Some sc)) img)
  = match transform sc fs with
    | Raise _ => Ok ("Error", 0%Q)
    | Ok scaled =>
        match predict_proba clf scaled with
        | Raise _ => Ok ("Error", 0%Q)
        | Ok ps =>
            match max_argmax ps with
            | Raise _ => Ok ("Error", 0%Q)
            | Ok (c, i) =>
                match getitem GESTURES i with
                | Raise _ => Ok ("Error", 0%Q)
                | Ok label => Ok (label, c)
                end
            end
        end
    end.
Proof.
  intros Hrgb Hshape Hproc Hx. unfold recognize. simpl.
  replace (if cv2 then lift (cvt img) else ret img) with (@lift image (Ok rgb))
    by (destruct cv2; unfold lift, ret; rewrite <- Hrgb; reflexivity).
  cbn -[extract_landmarks]. rewrite Hshape. simpl. rewrite Hproc. simpl.
  destruct (extract_landmarks (Some lms)) as [te r]. simpl in Hx. subst r.
  simpl.
  destruct (transform sc fs) as [scaled|]; simpl; [|reflexivity].
  destruct (predict_proba clf scaled) as [ps|]; simpl; [|reflexivity].
  destruct (max_argmax ps) as [[c i]|]; simpl; [|reflexivity].
  destruct (getitem GESTURES i); reflexivity.
Qed.

(** When the classifier's most probable class has an index past the six
    names of [GESTURES] (a model trained on more classes), the lookup
    raises and [recognize] answers ("Error", 0.0). *)
Theorem recognize_class_index_out_of_range (cv2 : bool) (image : Type)
    (cvt : image -> res image) (shape : image -> res unit)
    (proc : image -> res (list (list landmark))) clf sc (img rgb : image)
    lms rest fs scaled ps c i :
  (if cv2 then cvt img else Ok img) = Ok rgb ->
  shape img = Ok tt -> proc rgb = Ok (lms :: rest) ->
  snd (extract_landmarks (Some lms)) = Ok (Some fs) ->
  transform sc fs = Ok scaled -> predict_proba clf scaled = Ok ps ->
  max_argmax ps = Ok (c, i) -> (6 <= i)%nat ->
  snd (recognize cv2 image cvt shape proc
         (mkRecognizer (Some clf) (Some sc)) img) = Ok ("Error", 0%Q).
Proof.
  intros Hrgb Hshape Hproc Hx Ht Hp Hm Hi.
  rewrite (recognize_after_extraction cv2 image cvt shape proc clf sc img rgb
             lms rest fs Hrgb Hshape Hproc Hx), Ht, Hp, Hm.
  unfold getitem. replace (nth_error GESTURES i) with (@None string);
    [reflexivity|].
  symmetry. apply nth_error_None. simpl. lia.
Qed.

Lemma recognize_class_index_out_of_range_witness :
  snd (recognize true (list (list landmark)) (fun i => Ok i) (fun _ => Ok tt)
         (fun i => Ok i)
         (mkRecognizer (Some seven_class_model)
                       (Some (FittedScaler (fun x => Ok x)))) [hand21])
  = Ok ("Error", 0%Q).
Proof.
  apply (recognize_class_index_out_of_range true (list (list landmark))
           (fun i => Ok i) (fun _ => Ok tt) (fun i => Ok i) seven_class_model
           (FittedScaler (fun x => Ok x)) [hand21] [hand21] hand21 []
           (flat_map (fun _ => [0.5; 0.5; 0]%Q) hand21)
           (flat_map (fun _ => [0.5; 0.5; 0]%Q) hand21)
           [0.1; 0.1; 0.1; 0.1; 0.1; 0.1; 0.4]%Q 0.4 6);
    try reflexivity; vm_compute; reflexivity.
Defined.

End GestureExtras.

Module GestureModelFile.

Import Gesture GestureSamples.
Local Open Scope list_scope.

(** Without a model file, [load_model] installs an untrained
    [RandomForestClassifier] and [StandardScaler]; a frame with a well-formed
    hand then reaches the scaler, whose [NotFittedError] is logged, and the
    recognizer answers ("Error", 0.0) without ever calling the classifier. *)
Theorem missing_model_file_errors_at_scaler (cv2 : bool) (image : Type)
    (cvt : image -> res image) (shape : image -> res unit)
    (proc : image -> res (list (list landmark))) (pickle : res model_data)
    (img rgb : image) lms rest fs :
  (if cv2 then cvt img else Ok img) = Ok rgb ->
  shape img = Ok tt -> proc rgb = Ok (lms :: rest) ->
  extract_landmarks (Some lms) = ([], Ok (Some fs)) ->
  exists r, load_model false pickle = ([Log LWarning], Ok r) /\
    recognize cv2 image cvt shape proc r img
    = ([Call LandmarkProvider; Call FeatureExtractor; Call FeatureScaler;
        Log LError], Ok ("Error", 0%Q)).
Proof.
  intros Hrgb Hshape Hproc Hx. eexists. split; [reflexivity|].
  unfold recognize. simpl.
  replace (if cv2 then lift (cvt img) else ret img) with (@lift image (Ok rgb))
    by (destruct cv2; unfold lift, ret; rewrite <- Hrgb; reflexivity).
  cbn -[extract_landmarks]. rewrite Hshape. simpl. rewrite Hproc. simpl.
  rewrite Hx. reflexivity.
Qed.

Lemma missing_model_file_errors_at_scaler_witness :
  exists r, load_model false (Raise UnpicklingError) = ([Log LWarning], Ok r) /\
    recognize false (list (list landmark)) (fun i => Ok i) (fun _ => Ok tt)
      (fun i => Ok i) r [hand21]
    = ([Call LandmarkProvider; Call FeatureExtractor; Call FeatureScaler;
        Log LError], Ok ("Error", 0%Q)).
Proof.
  apply (missing_model_file_errors_at_scaler false (list (list landmark))
           (fun i => Ok i) (fun _ => Ok tt) (fun i => Ok i)
           (Raise UnpicklingError) [hand21] [hand21] hand21 []
           (flat_map (fun _ => [0.5; 0.5; 0]%Q) hand21));
    reflexivity.
Defined.

(** A pickle whose dictionary lacks the 'classifier' or the 'scaler' key
    loads without error, after which every frame is answered ("Unknown", 0.0)
    with one warning, without running the landmark provider. *)
Theorem pickle_without_model_keys_unknown (cv2 : bool) (image : Type)
    (cvt : image -> res image) (shape : image -> res unit)
    (proc : image -> res (list (list landmark))) (d : model_data) :
  data_classifier d = None \/ data_scaler d = None ->
  exists r, load_model true (Ok d) = ([Log LInfo], Ok r) /\
    forall img, recognize cv2 image cvt shape proc r img
                = ([Log LWarning], Ok ("Unknown", 0%Q)).
Proof.
  intros Hd. eexists. split; [reflexivity|]. intros img.
  unfold recognize. simpl.
  destruct Hd as [Hd|Hd]; rewrite Hd; [reflexivity|].
  destruct (data_classifier d); reflexivity.
Qed.

Lemma pickle_without_model_keys_unknown_witness :
  exists r, load_model true (Ok (mkModelData None (Some StandardScaler)))
            = ([Log LInfo], Ok r) /\
    forall img, recognize true unit (fun i => Ok i) (fun _ => Ok tt)
                  (fun _ => Ok []) r img
                = ([Log LWarning], Ok ("Unknown", 0%Q)).
Proof.
  apply (pickle_without_model_keys_unknown true unit (fun i => Ok i)
           (fun _ => Ok tt) (fun _ => Ok []) (mkModelData None (Some StandardScaler))).
  left. reflexivity.
Defined.

End GestureModelFile.

Module FirstDetection.

Import DetectionProps.

Local Open Scope list_scope.

(** [results.multi_hand_landmarks[0]]: the gesture recognizer only looks at
    the first detected hand; further hands never change its answer, its
    log or its calls. *)
Theorem gesture_recognize_first_hand_only (cv2 : bool) (image : Type)
    (cvt : image -> res image) (shape : image -> res unit)
    (proc1 proc2 : image -> res (list (list landmark)))
    (self : Gesture.recognizer) (img : image) :
  (forall i, same_first (proc1 i) (proc2 i)) ->
  Gesture.recognize cv2 image cvt shape proc1 self img
  = Gesture.recognize cv2 image cvt shape proc2 self img.
Proof.
  intros H. unfold Gesture.recognize.
  destruct (Gesture.rec_classifier self), (Gesture.rec_scaler self);
    try reflexivity.
  destruct cv2; [destruct (cvt img) as [rgb|e]|]; simpl; try reflexivity;
    destruct (shape img); simpl; try reflexivity;
    [specialize (H rgb) | specialize (H img)];
    destruct (proc1 _) as [l1|e1], (proc2 _) as [l2|e2];
    simpl in H; try contradiction; try (subst; reflexivity);
    destruct l1, l2; simpl in H; try discriminate; try reflexivity;
    injection H as ->; reflexivity.
Qed.

Lemma gesture_recognize_first_hand_only_witness :
  Gesture.recognize true unit (fun i => Ok i) (fun _ => Ok tt)
    (fun _ => Ok [GestureSamples.hand21])
    (Gesture.mkRecognizer (Some GestureSamples.seven_class_model)
                          (Some (Gesture.FittedScaler (fun x => Ok x)))) tt
  = Gesture.recognize true unit (fun i => Ok i) (fun _ => Ok tt)
    (fun _ => Ok [GestureSamples.hand21; []])
    (Gesture.mkRecognizer (Some GestureSamples.seven_class_model)
                          (Some (Gesture.FittedScaler (fun x => Ok x)))) tt.
Proof.
  apply gesture_recognize_first_hand_only.
  intros i. reflexivity.
Defined.

(** [results.multi_face_landmarks[0]]: likewise the expression recognizer
    only looks at the first detected face. *)
Theorem expression_recognize_first_face_only (sqrt : Q -> Q) (cv2 : bool)
    (image : Type) (cvt : image -> res image)
    (proc1 proc2 : image -> res (list (list landmark))) (img : image) :
  (forall i, same_first (proc1 i) (proc2 i)) ->
  FacialExpression.recognize sqrt cv2 image cvt proc1 img
  = FacialExpression.recognize sqrt cv2 image cvt proc2 img.
Proof.
  intros H. unfold FacialExpression.recognize.
  destruct cv2; simpl; [|reflexivity].
  destruct (cvt img) as [rgb|e]; simpl; [|reflexivity].
  specialize (H rgb).
  destruct (proc1 rgb) as [l1|e1], (proc2 rgb) as [l2|e2];
    simpl in H; try contradiction; try (subst; reflexivity).
  destruct l1, l2; simpl in H; try discriminate; try reflexivity.
  injection H as ->. reflexivity.
Qed.

Lemma expression_recognize_first_face_only_witness :
  FacialExpression.recognize (fun q => q) true unit (fun i => Ok i)
    (fun _ => Ok [[]]) tt
  = FacialExpression.recognize (fun q => q) true unit (fun i => Ok i)
    (fun _ => Ok [[]; [mkLandmark None None None]]) tt.
Proof.
  apply expression_recognize_first_face_only. intros i. reflexivity.
Defined.

End FirstDetection.

(** ** Further properties of the event store *)

Module StorageExtras.

Import Storage StorageQueries StoreProps SortFacts.
Local Open Scope list_scope.



Lemma in_firstn_in {A} n (l : list A) x : In x (firstn n l) -> In x l.
Proof. intros H. rewrite <- (firstn_skipn n l). apply in_or_app. auto. Qed.

Lemma in_skipn_in {A} n (l : list A) x : In x (skipn n l) -> In x l.
Proof. intros H. rewrite <- (firstn_skipn n l). apply in_or_app. auto. Qed.

Lemma firstn_add {A} a b (l : list A) :
  firstn (a + b) l = firstn a l ++ firstn b (skipn a l).
Proof.
  revert l; induction a as [|a IH]; intros [|x xs]; simpl; auto.
  - destruct b; reflexivity.
  - f_equal. apply IH.
Qed.

Lemma find_app_skip {A} (f : A -> bool) l1 l2 :
  Forall (fun x => f x = false) l1 -> find f (l1 ++ l2) = find f l2.
Proof.
  induction 1 as [|x xs Hx _ IH]; simpl; [reflexivity|]. rewrite Hx. exact IH.
Qed.

Lemma key_ge_antisym a b : key_ge a b = true -> key_ge b a = true -> a = b.
Proof.
  destruct a as [x|], b as [y|]; simpl; try congruence. intros H1 H2.
  rewrite (String.compare_antisym x y) in H1.
  destruct (String.compare y x) eqn:E; simpl in H1; try congruence.
  apply String.compare_eq_iff in E. congruence.
Qed.

(** With distinct timestamps a sorted answer is unique. *)
Lemma strongly_sorted_unique (r1 r2 : list document) :
  StronglySorted newer_first r1 -> StronglySorted newer_first r2 ->
  Permutation r1 r2 -> NoDup (map ts_key r1) -> r1 = r2.
Proof.
  revert r2. induction r1 as [|a t1 IH]; intros r2 H1 H2 Hp Hnd.
  - symmetry. apply Permutation_nil. exact Hp.
  - destruct r2 as [|b t2]; [apply Permutation_sym, Permutation_nil in Hp; discriminate|].
    assert (Ha : In a (b :: t2)) by (apply (Permutation_in _ Hp); left; reflexivity).
    assert (Hb : In b (a :: t1))
      by (apply (Permutation_in _ (Permutation_sym Hp)); left; reflexivity).
    apply StronglySorted_inv in H1 as [H1 F1].
    apply StronglySorted_inv in H2 as [H2 F2].
    assert (Hab : a = b).
    { destruct Ha as [->|Ha]; [reflexivity|].
      destruct Hb as [<-|Hb]; [reflexivity|].
      exfalso. rewrite Forall_forall in F1, F2.
      pose proof (key_ge_antisym _ _ (F1 b Hb) (F2 a Ha)) as Hk.
      simpl in Hnd. apply NoDup_cons_iff in Hnd as [Hnd _]. apply Hnd.
      rewrite Hk. apply in_map. exact Hb. }
    subst b. f_equal. apply IH; [exact H1 | exact H2 | |].
    + apply Permutation_cons_inv in Hp. exact Hp.
    + simpl in Hnd. apply NoDup_cons_iff in Hnd as [_ Hnd]. exact Hnd.
Qed.

Lemma sorted_answer_unique (l r1 r2 : list document) :
  NoDup (map ts_key l) -> sorted_answer l r1 -> sorted_answer l r2 -> r1 = r2.
Proof.
  intros Hnd [P1 S1] [P2 S2].
  apply strongly_sorted_unique.
  - apply Sorted_StronglySorted; [exact newer_first_trans | exact S1].
  - apply Sorted_StronglySorted; [exact newer_first_trans | exact S2].
  - eapply perm_trans; [apply Permutation_sym, P1 | exact P2].
  - eapply Permutation_NoDup; [apply Permutation_map, P1 | exact Hnd].
Qed.

Lemma answer_of_nil (find : query) r : answers_sorted find -> find [] = Ok r -> r = [].
Proof.
  intros H Hr. destruct (H _ _ Hr) as [Hp _]. apply Permutation_nil. exact Hp.
Qed.



(** [get_events] only returns documents of the collection. *)
Theorem get_events_from_collection (find : query) (s : storage) (limit offset : Z) d :
  answers_sorted find -> In d (get_events find s limit offset) ->
  exists docs, events_collection s = Some docs /\ In d docs.
Proof.
  intros Hf. unfold get_events.
  destruct (events_collection s) as [docs|]; [|contradiction].
  destruct (find docs) as [r|e] eqn:E; [|contradiction].
  intros H. exists docs. split; [reflexivity|].
  apply in_firstn_in, in_skipn_in in H.
  exact (Permutation_in _ (Permutation_sym (proj1 (Hf _ _ E))) H).
Qed.

Lemma get_events_from_collection_witness :
  In (mkDocument 0 (mkEvent "Yes" "Happy" (PFin 1) None))
     (get_events sorting_server
        (mkStorage (Some [mkDocument 0 (mkEvent "Yes" "Happy" (PFin 1) None)]) 1) 10 0) /\
  exists docs,
    events_collection
      (mkStorage (Some [mkDocument 0 (mkEvent "Yes" "Happy" (PFin 1) None)]) 1) = Some docs
    /\ In (mkDocument 0 (mkEvent "Yes" "Happy" (PFin 1) None)) docs.
Proof.
  split; [simpl; left; reflexivity|].
  apply (get_events_from_collection sorting_server _ 10 0);
    [exact sorting_server_sorted | simpl; left; reflexivity].
Defined.

(** An offset at or past the end of the collection gives an empty page,
    whatever the limit. *)
Theorem get_events_past_end (find : query) (s : storage) (docs : list document)
    (limit offset : Z) :
  answers_sorted find -> events_collection s = Some docs ->
  (Z.of_nat (length docs) <= offset)%Z ->
  get_events find s limit offset = [].
Proof.
  intros Hf E Ho. unfold get_events. rewrite E.
  destruct (find docs) as [r|e] eqn:Er; [|reflexivity].
  rewrite (skipn_all2 r); [apply firstn_nil|].
  rewrite <- (Permutation_length (proj1 (Hf _ _ Er))). lia.
Qed.

Lemma get_events_past_end_witness :
  get_events sorting_server three_events 10 3 = [].
Proof.
  apply (get_events_past_end sorting_server three_events three_docs);
    [exact sorting_server_sorted | reflexivity | simpl; lia].
Defined.

(** Pagination: when the stored timestamps are distinct, two consecutive
    pages of [limit] events, read at [offset] and [offset + limit] by
    separate queries, are the page of [2 * limit] events at [offset]
    (while [2 * limit] stays within the cap of 1000), whatever sorted
    answers the three queries get. (Equal timestamps may come in a
    different order in each query, so pages may then overlap.) *)
Theorem get_events_pages_concat (find1 find2 find3 : query) (s : storage)
    (docs : list document) (limit offset : Z) :
  events_collection s = Some docs -> NoDup (map ts_key docs) ->
  answers_sorted find1 -> answers_sorted find2 -> answers_sorted find3 ->
  (exists r, find1 docs = Ok r) -> (exists r, find2 docs = Ok r) ->
  (exists r, find3 docs = Ok r) ->
  (1 <= limit)%Z -> (2 * limit <= 1000)%Z -> (0 <= offset)%Z ->
  get_events find1 s limit offset ++ get_events find2 s limit (offset + limit)
  = get_events find3 s (2 * limit) offset.
Proof.
  intros E Hnd F1 F2 F3 [r1 E1] [r2 E2] [r3 E3] H1 H2 H3. unfold get_events.
  rewrite E, E1, E2, E3.
  rewrite <- (sorted_answer_unique docs r1 r3 Hnd (F1 _ _ E1) (F3 _ _ E3)).
  rewrite <- (sorted_answer_unique docs r1 r2 Hnd (F1 _ _ E1) (F2 _ _ E2)).
  replace (Z.max 1 (Z.min limit 1000)) with limit by lia.
  replace (Z.max 1 (Z.min (2 * limit) 1000)) with (2 * limit)%Z by lia.
  replace (Z.max 0 offset) with offset by lia.
  replace (Z.max 0 (offset + limit)) with (offset + limit)%Z by lia.
  replace (Z.to_nat (offset + limit))
    with (Z.to_nat limit + Z.to_nat offset)%nat by lia.
  replace (Z.to_nat (2 * limit))
    with (Z.to_nat limit + Z.to_nat limit)%nat by lia.
  rewrite firstn_add, <- skipn_skipn. reflexivity.
Qed.

Lemma get_events_pages_concat_witness :
  get_events sorting_server three_events 1 1
    ++ get_events sorting_server_rev three_events 1 (1 + 1)
  = get_events sorting_server three_events (2 * 1) 1.
Proof.
  apply (get_events_pages_concat _ _ _ three_events three_docs);
    try reflexivity; try lia;
    try (eexists; reflexivity);
    try exact sorting_server_sorted; try exact sorting_server_rev_sorted.
  repeat constructor; simpl; intuition discriminate.
Defined.

(** [clear_events] returns [True] exactly on a connected store whose
    server acknowledges the [delete_many]; identifiers keep counting from
    where they were; after a [True] no query finds anything. *)
Theorem clear_events_empties (w : write_result) (s : storage) :
  let (ok, s') := clear_events w s in
  (ok = true <-> events_collection s <> None /\ w = Acknowledged) /\
  next_id s' = next_id s /\
  (ok = true ->
   (forall find limit offset, answers_sorted find ->
      get_events find s' limit offset = []) /\
   (forall find batch gesture limit, answers_sorted find ->
      get_events_by_gesture find batch s' gesture limit = []) /\
   (forall object_id q event_id, get_event_by_id object_id q s' event_id = None)).
Proof.
  unfold clear_events. destruct (events_collection s) as [docs|] eqn:E.
  - destruct w as [|e after].
    + split; [split; [intros _; split; [congruence | reflexivity] | reflexivity]|].
      split; [reflexivity|]. intros _.
      split; [|split].
      * intros find limit offset Hf. unfold get_events. simpl.
        destruct (find []) as [r|e] eqn:Er; [|reflexivity].
        rewrite (answer_of_nil find r Hf Er), skipn_nil, firstn_nil. reflexivity.
      * intros find batch gesture limit Hf. unfold get_events_by_gesture. simpl.
        destruct (String.eqb gesture ""); [reflexivity|].
        destruct (find []) as [r|e] eqn:Er; [|reflexivity].
        rewrite (answer_of_nil find r Hf Er). unfold mongo_limit.
        destruct (Z.eqb limit 0), (Z.ltb 0 limit); rewrite ?firstn_nil; reflexivity.
      * intros object_id q event_id. unfold get_event_by_id. simpl.
        destruct (String.eqb event_id ""); [reflexivity|].
        destruct (object_id event_id), q; reflexivity.
    + split; [split; [discriminate | intros [_ H]; discriminate H]|].
      split; [reflexivity | discriminate].
  - split; [split; [discriminate | intros [H _]; contradiction]|].
    split; [reflexivity | discriminate].
Qed.

(** Round trip: when the server acknowledges the insert and answers the
    lookup, the identifier [insert_event] returns, given to
    [get_event_by_id] in a string [ObjectId] parses back to it, finds the
    inserted document, with the timestamp [insert_event] filled in; a
    failed lookup gives [None]. *)
Theorem insert_then_get_event_by_id (object_id : string -> res nat)
    (s s' : storage) (now : string) (ev : event_doc) (i : nat) (key : string) :
  ids_ok s -> insert_event Acknowledged s now ev = (Some i, s') ->
  key <> "" -> object_id key = Ok i ->
  get_event_by_id object_id (Ok tt) s' key
  = Some (mkDocument i
            (match ev_timestamp ev with
             | Some _ => ev
             | None => mkEvent (ev_gesture ev) (ev_expression ev)
                               (ev_confidence ev) (Some now)
             end)) /\
  (forall e, get_event_by_id object_id (Raise e) s' key = None).
Proof.
  unfold ids_ok, insert_event.
  destruct (events_collection s) as [docs|] eqn:E; [|discriminate].
  intros [_ Hlt] Hins Hk Ho. injection Hins as <- <-.
  unfold get_event_by_id. simpl.
  rewrite (proj2 (String.eqb_neq _ _) Hk), Ho.
  split; [|reflexivity].
  rewrite find_app_skip; [simpl; rewrite Nat.eqb_refl; reflexivity|].
  eapply Forall_impl; [|exact Hlt]. simpl. intros d Hd.
  apply Nat.eqb_neq. lia.
Qed.

Lemma insert_then_get_event_by_id_witness :
  get_event_by_id parse_oid (Ok tt)
    (snd (insert_event Acknowledged three_events "2024-04-01"
            (mkEvent "No" "Sad" (PFin 0.5) None))) "3"
  = Some (mkDocument 3 (mkEvent "No" "Sad" (PFin 0.5) (Some "2024-04-01"))) /\
  (forall e, get_event_by_id parse_oid (Raise e)
    (snd (insert_event Acknowledged three_events "2024-04-01"
            (mkEvent "No" "Sad" (PFin 0.5) None))) "3" = None).
Proof.
  apply (insert_then_get_event_by_id parse_oid three_events _ "2024-04-01"
           (mkEvent "No" "Sad" (PFin 0.5) None) 3 "3").
  - unfold ids_ok. simpl. split.
    + repeat constructor; simpl; intuition discriminate.
    + repeat constructor; simpl; lia.
  - reflexivity.
  - discriminate.
  - reflexivity.
Defined.

(** [get_events_by_gesture] only returns stored documents of the asked
    gesture. *)
Theorem get_events_by_gesture_matches (find : query) (batch : nat) (s : storage)
    (gesture : string) (limit : Z) d :
  answers_sorted find ->
  In d (get_events_by_gesture find batch s gesture limit) ->
  ev_gesture (doc_event d) = gesture /\
  exists docs, events_collection s = Some docs /\ In d docs.
Proof.
  intros Hf. unfold get_events_by_gesture.
  destruct (events_collection s) as [docs|]; [|contradiction].
  destruct (String.eqb gesture ""); [contradiction|].
  destruct (find _) as [r|e] eqn:Er; [|contradiction].
  unfold mongo_limit. intros H.
  assert (H' : In d r)
    by (destruct (Z.eqb limit 0), (Z.ltb 0 limit);
        solve [exact H | exact (in_firstn_in _ _ _ H)]).
  apply (Permutation_in _ (Permutation_sym (proj1 (Hf _ _ Er)))) in H'.
  apply filter_In in H' as [Hin Hg]. apply String.eqb_eq in Hg.
  split; [exact Hg|]. exists docs. auto.
Qed.

Lemma get_events_by_gesture_matches_witness :
  In (mkDocument 0 (mkEvent "Hello" "Happy" (PFin 0.9) (Some "2024-01-01")))
     (get_events_by_gesture sorting_server 100 three_events "Hello" 5) /\
  ev_gesture (doc_event (mkDocument 0 (mkEvent "Hello" "Happy" (PFin 0.9)
                                        (Some "2024-01-01"))))
  = "Hello" /\
  exists docs, events_collection three_events = Some docs /\
    In (mkDocument 0 (mkEvent "Hello" "Happy" (PFin 0.9) (Some "2024-01-01"))) docs.
Proof.
  split; [vm_compute; right; left; reflexivity|].
  apply (get_events_by_gesture_matches sorting_server 100) with (limit := 5%Z);
    [exact sorting_server_sorted|].
  vm_compute. right. left. reflexivity.
Defined.

(** How many events [get_events_by_gesture] returns when the server
    answers the query: unlike [get_events] its limit is not clamped; 0
    means no limit, a positive limit caps the count, and a negative limit
    caps it at its absolute value within one reply batch. A failed query
    returns none. *)
Theorem get_events_by_gesture_count (find : query) (batch : nat) (s : storage)
    (docs : list document) (gesture : string) (limit : Z) :
  events_collection s = Some docs -> gesture <> "" -> answers_sorted find ->
  length (get_events_by_gesture find batch s gesture limit)
  = match find (matching gesture docs) with
    | Raise _ => 0%nat
    | Ok _ =>
        let n := length (matching gesture docs) in
        if Z.eqb limit 0 then n
        else if Z.ltb 0 limit then Nat.min (Z.to_nat limit) n
        else Nat.min (Nat.min (Z.to_nat (Z.abs limit)) batch) n
    end.
Proof.
  intros E Hg Hf. unfold get_events_by_gesture, mongo_limit.
  rewrite E, (proj2 (String.eqb_neq _ _) Hg). unfold matching.
  destruct (find _) as [r|e] eqn:Er; [|reflexivity]. cbv zeta.
  pose proof (Permutation_length (proj1 (Hf _ _ Er))) as Hl.
  destruct (Z.eqb limit 0), (Z.ltb 0 limit); rewrite ?length_firstn, Hl; reflexivity.
Qed.

Lemma get_events_by_gesture_count_witness :
  length (get_events_by_gesture sorting_server 100 three_events "Hello" 0) = 2%nat /\
  length (get_events_by_gesture sorting_server 100 three_events "Hello" (-1)) = 1%nat.
Proof.
  split.
  - rewrite (get_events_by_gesture_count sorting_server 100 three_events three_docs
               "Hello" 0);
      [reflexivity | reflexivity | discriminate | exact sorting_server_sorted].
  - rewrite (get_events_by_gesture_count sorting_server 100 three_events three_docs
               "Hello" (-1));
      [reflexivity | reflexivity | discriminate | exact sorting_server_sorted].
Defined.

End StorageExtras.

(** ** Properties of the HTTP endpoints *)

Module AppExtras.

Import Storage App AppProps.
Local Open Scope list_scope.

Lemma empty_or_blank (s : string) :
  (String.eqb s "" || strip_is_empty s)%bool = strip_is_empty s.
Proof. destruct (String.eqb_spec s ""); subst; reflexivity. Qed.

Lemma confidence_check (c : pyfloat) :
  (pyfloat_lt c (PFin 0) || pyfloat_lt (PFin 1) c)%bool = false <-> confidence_ok c.
Proof.
  destruct c as [q|[|]|]; simpl; [| split; [discriminate | contradiction]
                                  | split; [discriminate | contradiction]
                                  | split; [intros _; exact I | reflexivity]].
  rewrite Bool.orb_false_iff, !Qltb_false. split.
  - intros [H1 H2]. split; apply Qnot_lt_le; assumption.
  - intros [H1 H2]. split; apply Qle_not_lt; assumption.
Qed.

Lemma log_event_valid (str_oid : nat -> string) w db now ev :
  valid_event ev ->
  log_event str_oid w db now ev
  = match db with
    | None =>
        (HTTP200 (mkEventResponse "mock_id" (gesture ev) (expression ev)
                                  (confidence ev) (effective_timestamp now ev)), db)
    | Some store =>
        let (result, store') :=
          insert_event w store now
            (mkEvent (gesture ev) (expression ev) (confidence ev)
                     (Some (effective_timestamp now ev))) in
        (HTTP200 (mkEventResponse (str_inserted str_oid result) (gesture ev)
                                  (expression ev) (confidence ev)
                                  (effective_timestamp now ev)), Some store')
    end.
Proof.
  intros (Hg & He & Hc). unfold log_event.
  rewrite !empty_or_blank, Hg, He, (proj2 (confidence_check _) Hc).
  reflexivity.
Qed.

(** [POST /log_event] returns a response exactly when the gesture and the
    expression are not blank (Unicode whitespace counts as blank) and the
    confidence passes [not (c < 0 or c > 1)], which [nan] does; every
    other request gets a 400 and leaves the store as it was. *)
Theorem log_event_accepts_iff (str_oid : nat -> string) (w : write_result)
    (db : option storage) (now : string) (ev : event) :
  ((exists body, fst (log_event str_oid w db now ev) = HTTP200 body) <->
   valid_event ev) /\
  (forall code detail, fst (log_event str_oid w db now ev) = HTTPError code detail ->
   code = 400%Z /\ snd (log_event str_oid w db now ev) = db).
Proof.
  destruct (strip_is_empty (gesture ev)) eqn:Hg;
  [|destruct (strip_is_empty (expression ev)) eqn:He;
    [|destruct (pyfloat_lt (confidence ev) (PFin 0)
                || pyfloat_lt (PFin 1) (confidence ev))%bool eqn:Hc]].
  - unfold log_event. rewrite empty_or_blank, Hg. simpl.
    split; [split; [intros [b Hb]; discriminate | intros (H & _); congruence]|].
    intros code detail H. injection H as <- _. auto.
  - unfold log_event. rewrite !empty_or_blank, Hg, He. simpl.
    split; [split; [intros [b Hb]; discriminate | intros (_ & H & _); congruence]|].
    intros code detail H. injection H as <- _. auto.
  - unfold log_event. rewrite !empty_or_blank, Hg, He, Hc. simpl.
    split; [split; [intros [b Hb]; discriminate
                   | intros (_ & _ & H); apply confidence_check in H; congruence]|].
    intros code detail H. injection H as <- _. auto.
  - assert (Hv : valid_event ev)
      by (split; [exact Hg | split; [exact He | apply confidence_check; exact Hc]]).
    rewrite (log_event_valid str_oid w db now ev Hv).
    destruct db as [store|]; [destruct (insert_event w store now _)|];
      simpl; (split; [split; [intros _; exact Hv | intros _; eexists; reflexivity]
                     | intros code detail H; discriminate]).
Qed.

(** When the store does not take the event (it is offline, or the server
    raises on the [insert_one]), an accepted [log_event] still answers
    with the id ["None"] ([str] of the [None] that [insert_event]
    returned) and the request's fields; an offline store is left as it
    was. *)
Theorem log_event_id_none_when_not_stored (str_oid : nat -> string)
    (w : write_result) (s : storage) (now : string) (ev : event) :
  valid_event ev ->
  (events_collection s = None \/ exists e after, w = WriteRaised e after) ->
  fst (log_event str_oid w (Some s) now ev)
  = HTTP200 (mkEventResponse "None" (gesture ev) (expression ev) (confidence ev)
                             (effective_timestamp now ev)) /\
  (events_collection s = None -> snd (log_event str_oid w (Some s) now ev) = Some s).
Proof.
  intros Hv Hw. rewrite (log_event_valid str_oid w _ now ev Hv).
  unfold insert_event. destruct (events_collection s) as [docs|] eqn:E.
  - destruct Hw as [Hw | (e & after & ->)]; [discriminate Hw|].
    split; [reflexivity | discriminate].
  - split; reflexivity.
Qed.

Lemma log_event_id_none_when_not_stored_witness :
  fst (log_event (fun _ => "id") (WriteRaised OperationFailure [])
         (Some (mkStorage (Some []) 0)) "2024-05-01"
         (mkAppEvent "Hello" "Happy" PNaN (Some "")))
  = HTTP200 (mkEventResponse "None" "Hello" "Happy" PNaN "2024-05-01") /\
  (events_collection (mkStorage (Some []) 0) = None ->
   snd (log_event (fun _ => "id") (WriteRaised OperationFailure [])
          (Some (mkStorage (Some []) 0)) "2024-05-01"
          (mkAppEvent "Hello" "Happy" PNaN (Some "")))
   = Some (mkStorage (Some []) 0)).
Proof.
  apply (log_event_id_none_when_not_stored (fun _ => "id")
           (WriteRaised OperationFailure []) (mkStorage (Some []) 0) "2024-05-01"
           (mkAppEvent "Hello" "Happy" PNaN (Some ""))).
  - split; [reflexivity | split; [reflexivity | exact I]].
  - right. exists OperationFailure, []. reflexivity.
Defined.

(** Against a connected store whose server acknowledges the write, an
    accepted event is appended as a new document with the next identifier
    and the recorded timestamp, and the response echoes both. *)
Theorem log_event_persists (str_oid : nat -> string) (s : storage)
    (docs : list document) (now : string) (ev : event) :
  events_collection s = Some docs -> valid_event ev ->
  log_event str_oid Acknowledged (Some s) now ev
  = (HTTP200 (mkEventResponse (str_oid (next_id s)) (gesture ev) (expression ev)
                              (confidence ev) (effective_timestamp now ev)),
     Some (mkStorage
             (Some (docs ++ [mkDocument (next_id s)
                               (mkEvent (gesture ev) (expression ev) (confidence ev)
                                        (Some (effective_timestamp now ev)))]))
             (S (next_id s)))).
Proof.
  intros E Hv. rewrite (log_event_valid str_oid _ _ now ev Hv).
  unfold insert_event. rewrite E. reflexivity.
Qed.

Lemma log_event_persists_witness :
  log_event (fun n => if Nat.eqb n 0 then "oid0" else "oid") Acknowledged
    (Some (mkStorage (Some []) 0)) "2024-05-01" (mkAppEvent " Help" "Sad" (PFin 1) None)
  = (HTTP200 (mkEventResponse "oid0" " Help" "Sad" (PFin 1) "2024-05-01"),
     Some (mkStorage (Some [mkDocument 0 (mkEvent " Help" "Sad" (PFin 1)
                                                 (Some "2024-05-01"))]) 1)).
Proof.
  apply (log_event_persists (fun n => if Nat.eqb n 0 then "oid0" else "oid")
           (mkStorage (Some []) 0) []); [reflexivity|].
  split; [reflexivity | split; [reflexivity | split; discriminate]].
Defined.

(** [DELETE /events] reports success for every store object, whatever
    [clear_events] returned: also when it returned [False] because the
    store is offline or the server raised on the [delete_many]. *)
Theorem clear_endpoint_always_success (w : write_result) (s : storage) :
  clear_events_endpoint w (Some s)
  = (HTTP200 ("success", "All events cleared"), Some (snd (clear_events w s))) /\
  (fst (clear_events w s) = false <->
   events_collection s = None \/ exists e after, w = WriteRaised e after).
Proof.
  unfold clear_events_endpoint. destruct (clear_events w s) as [ok s'] eqn:C.
  split; [reflexivity|]. simpl. unfold clear_events in C.
  destruct (events_collection s) as [docs|]; [destruct w as [|e after]|];
    injection C as <- _.
  - split; [discriminate | intros [H|(e & after & H)]; discriminate H].
  - split; [intros _; right; eauto | reflexivity].
  - split; [intros _; left; reflexivity | reflexivity].
Qed.

(** [GET /events] answers 200 exactly for a limit in [1, 1000] and a
    non-negative offset, whatever the store and the server's answer;
    errors are 400s; a 200 holds at most [limit] events. *)
Theorem get_events_endpoint_validation (str_oid : nat -> string) (find : query)
    (db : option storage) (limit offset : Z) :
  ((exists body, get_events_endpoint str_oid find db limit offset = HTTP200 body) <->
   (1 <= limit <= 1000 /\ 0 <= offset)%Z) /\
  (forall code detail,
   get_events_endpoint str_oid find db limit offset = HTTPError code detail ->
   code = 400%Z) /\
  (forall body, get_events_endpoint str_oid find db limit offset = HTTP200 body ->
   (length body <= Z.to_nat limit)%nat).
Proof.
  unfold get_events_endpoint.
  destruct (Z.ltb limit 1 || Z.ltb 1000 limit)%bool eqn:Hl.
  - apply Bool.orb_true_iff in Hl.
    destruct Hl as [Hl|Hl]; apply Z.ltb_lt in Hl;
      (split; [split; [intros [b Hb]; discriminate | lia]|]);
      (split; [intros code detail H; injection H as <- _; reflexivity
              | intros body H; discriminate]).
  - apply Bool.orb_false_iff in Hl as [Hl1 Hl2].
    apply Z.ltb_ge in Hl1, Hl2.
    destruct (Z.ltb offset 0) eqn:Ho.
    + apply Z.ltb_lt in Ho.
      split; [split; [intros [b Hb]; discriminate | lia]|].
      split; [intros code detail H; injection H as <- _; reflexivity
             | intros body H; discriminate].
    + apply Z.ltb_ge in Ho.
      split; [split; [intros _; lia | intros _; destruct db; eexists; reflexivity]|].
      split; [intros code detail H; destruct db; discriminate|].
      intros body H. destruct db as [store|]; injection H as <-; simpl; [|lia].
      rewrite length_map. unfold get_events.
      destruct (events_collection store) as [docs|]; simpl; [|lia].
      destruct (find docs); simpl; [rewrite length_firstn|]; lia.
Qed.

End AppExtras.

Module UIExtras.

Import Storage App UI AppProps HUDProps.
Local Open Scope list_scope.

(** The 'r' key composed with [POST /log_event]: a frame whose gesture is
    anything but "Unknown" (the sentinels "No Hand" and "Error" included)
    is posted without a timestamp, and a connected store whose server
    acknowledges the write records it, dated by the server. *)
Theorem record_key_stores_frame_result (key : Z) (g e : string) (c : pyfloat)
    (str_oid : nat -> string) (s : storage) (docs : list document) (now : string) :
  Z.land key 255 = 114%Z -> g <> "Unknown" ->
  strip_is_empty g = false -> strip_is_empty e = false -> confidence_ok c ->
  events_collection s = Some docs ->
  exists ev, handle_key key g e c true = (true, [ev]) /\
    log_event str_oid Acknowledged (Some s) now ev
    = (HTTP200 (mkEventResponse (str_oid (next_id s)) g e c now),
       Some (mkStorage (Some (docs ++ [mkDocument (next_id s) (mkEvent g e c (Some now))]))
                       (S (next_id s)))).
Proof.
  intros Hk Hu Hg He Hc E. exists (mkAppEvent g e c None). split.
  - unfold handle_key. rewrite Hk. simpl.
    rewrite (proj2 (String.eqb_neq _ _) Hu). reflexivity.
  - unfold log_event. cbn [gesture expression confidence timestamp].
    rewrite !AppExtras.empty_or_blank, Hg, He,
      (proj2 (AppExtras.confidence_check _) Hc).
    unfold insert_event. rewrite E. reflexivity.
Qed.

Lemma record_key_stores_frame_result_witness :
  exists ev, handle_key 114 "No Hand" "Unknown" (PFin 0) true = (true, [ev]) /\
    log_event (fun _ => "oid") Acknowledged (Some (mkStorage (Some []) 7)) "2024-05-01" ev
    = (HTTP200 (mkEventResponse "oid" "No Hand" "Unknown" (PFin 0) "2024-05-01"),
       Some (mkStorage (Some [mkDocument 7 (mkEvent "No Hand" "Unknown" (PFin 0)
                                                   (Some "2024-05-01"))]) 8)).
Proof.
  apply (record_key_stores_frame_result 114 "No Hand" "Unknown" (PFin 0) (fun _ => "oid")
           (mkStorage (Some []) 7) [] "2024-05-01");
    try reflexivity; try discriminate.
  split; [apply Qle_refl | discriminate].
Defined.

Lemma clamp_cases c :
  clamp c = match c with
            | PFin v => PFin (if Qltb v 1 then (if Qltb 0 v then v else 0) else 1)
            | PInf false => PFin 1
            | PInf true => PFin 0
            | PNaN => PFin 1
            end.
Proof.
  destruct c as [v|[|]|]; unfold clamp, py_min, py_max; simpl; try reflexivity.
  destruct (Qltb v 1); simpl; [destruct (Qltb 0 v)|]; reflexivity.
Qed.

Lemma clamp_fin c : exists q, clamp c = PFin q /\ (0 <= q <= 1)%Q.
Proof.
  rewrite clamp_cases. destruct c as [v|[|]|].
  - eexists. split; [reflexivity|].
    destruct (Qltb v 1) eqn:E1; [destruct (Qltb 0 v) eqn:E2|].
    + apply Qltb_true in E1, E2. split; apply Qlt_le_weak; assumption.
    + split; discriminate.
    + split; discriminate.
  - eexists. split; [reflexivity|]. split; discriminate.
  - eexists. split; [reflexivity|]. split; discriminate.
  - eexists. split; [reflexivity|]. split; discriminate.
Qed.

Lemma clamp_green c q :
  clamp c = PFin q ->
  (Qltb 0.7 q = true <-> pyfloat_lt (PFin 0.7) c = true \/ c = PNaN).
Proof.
  rewrite clamp_cases. destruct c as [v|[|]|]; intros H; injection H as <-; simpl;
    try (split; [intros _; auto | reflexivity]);
    try (split; [discriminate | intros [H|H]; discriminate H]).
  destruct (Qltb v 1) eqn:E1; [destruct (Qltb 0 v) eqn:E2|].
  - split; [intros H; left; exact H | intros [H|H]; [exact H | discriminate H]].
  - apply Qltb_false, Qnot_lt_le in E2. split; [discriminate|].
    intros [H|H]; [|discriminate H]. apply Qltb_true in H. exfalso.
    apply (Qlt_irrefl 0). eapply Qlt_le_trans; [|exact E2].
    eapply Qlt_trans; [|exact H]. reflexivity.
  - apply Qltb_false, Qnot_lt_le in E1. split; [intros _|reflexivity].
    left. apply Qltb_true. eapply Qlt_le_trans; [|exact E1]. reflexivity.
Qed.

Lemma py_int_bounds (q : Q) (w : Z) :
  (0 <= q)%Q -> (q <= inject_Z w)%Q -> (0 <= py_int q <= w)%Z.
Proof.
  destruct q as [n d]. unfold Qle, py_int. simpl. intros H1 H2.
  rewrite Z.quot_div_nonneg by lia. split.
  - apply Z.div_pos; lia.
  - apply Z.div_le_upper_bound; lia.
Qed.

(** [draw_confidence_bar] on a frame: the filled part never leaves the
    bar, whatever the confidence (out of range, infinite, NaN, or not a
    number); it is green exactly when the confidence is a number above
    0.7 or NaN ([min(1.0, nan)] is [1.0]), and a NaN confidence fills the
    whole bar. *)
Theorem confidence_bar_within_bounds (cmds : list draw_cmd) (x y width height : Z)
    (confidence : pyval) (label : string) :
  (0 <= width)%Z ->
  exists filled_width color rest,
    draw_confidence_bar (Some cmds) x y width height confidence label
    = Some (cmds ++ Rect x y (x + width) (y + height) (50, 50, 50)%Z (-1)%Z
                   :: Rect x y (x + filled_width) (y + height) color (-1)%Z :: rest) /\
    (0 <= filled_width <= width)%Z /\
    (color = color_gesture <->
     exists f, confidence = PyNum f /\ (pyfloat_lt (PFin 0.7) f = true \/ f = PNaN)) /\
    (confidence = PyNum PNaN -> filled_width = width).
Proof.
  intros Hw.
  destruct (clamp_fin (match confidence with PyNum f => f | PyOther => PFin 0 end))
    as (q & Hq & H0 & H1).
  exists (py_int (inject_Z width * q)%Q),
    (if Qltb 0.7 q then color_gesture else color_confidence).
  eexists. split.
  { unfold draw_confidence_bar. cbv zeta. unfold clamp in Hq. rewrite Hq.
    reflexivity. }
  split; [|split].
  - apply py_int_bounds.
    + apply Qmult_le_0_compat; [|exact H0].
      unfold Qle. simpl. lia.
    + rewrite <- (Qmult_1_r (inject_Z width)) at 2.
      rewrite !(Qmult_comm (inject_Z width)).
      apply Qmult_le_compat_r; [exact H1|]. unfold Qle. simpl. lia.
  - pose proof (clamp_green _ _ Hq) as Hg.
    destruct (Qltb 0.7 q).
    + pose proof (proj1 Hg eq_refl) as E. split; [intros _ | reflexivity].
      destruct confidence as [f|]; [exists f; split; [reflexivity | exact E]|].
      destruct E as [E|E]; discriminate E.
    + split; [discriminate|]. intros (f & -> & Hf). apply Hg in Hf. discriminate Hf.
  - intros ->. rewrite clamp_cases in Hq. injection Hq as <-.
    unfold py_int. simpl. rewrite Z.mul_1_r. apply Z.quot_1_r.
Qed.

Lemma confidence_bar_within_bounds_witness :
  exists filled_width color rest,
    draw_confidence_bar (Some []) 20 55 150 15 (PyNum PNaN) "Confidence"
    = Some (Rect 20 55 (20 + 150) (55 + 15) (50, 50, 50)%Z (-1)%Z
              :: Rect 20 55 (20 + filled_width) (55 + 15) color (-1)%Z :: rest) /\
    (0 <= filled_width <= 150)%Z /\
    (color = color_gesture <->
     exists f, PyNum PNaN = PyNum f /\ (pyfloat_lt (PFin 0.7) f = true \/ f = PNaN)) /\
    (PyNum PNaN = PyNum PNaN -> filled_width = 150%Z).
Proof. apply (confidence_bar_within_bounds [] 20 55 150 15); lia. Defined.

End UIExtras.

(** ** Status codes of the countries routes *)

Module CountriesFacts.

Import Countries CountrySamples.

Lemma rbind_ok_inv {A B} (r : res A) (f : A -> res B) y :
  rbind r f = Ok y -> exists x, r = Ok x /\ f x = Ok y.
Proof. destruct r as [x|e]; simpl; [eauto | discriminate]. Qed.

Lemma map_res_raise {A B} (f : A -> res B) l x e :
  In x l -> f x = Raise e -> exists e', map_res f l = Raise e'.
Proof.
  induction l as [|a l IH]; simpl; [contradiction|]. intros [->|Hin] Hf.
  - rewrite Hf. simpl. eauto.
  - destruct (f a); simpl; [|eauto].
    destruct (IH Hin Hf) as [e' ->]. simpl. eauto.
Qed.

Lemma map_res_ok {A B} (f : A -> res B) l :
  (forall x, In x l -> exists y, f x = Ok y) ->
  exists ys, map_res f l = Ok ys /\ Forall2 (fun x y => f x = Ok y) l ys.
Proof.
  induction l as [|a l IH]; simpl; intros H; [eauto|].
  destruct (H a (or_introl eq_refl)) as [y Hy]. rewrite Hy. simpl.
  destruct IH as [ys [-> Hl]]; [intros x Hx; apply H; auto|].
  simpl. eexists. split; [reflexivity|]. constructor; assumption.
Qed.

(** Every formatted country is a non-empty dictionary, hence truthy. *)
Lemma format_full_truthy c f : format_full c = Ok f -> truthy (JObj f) = true.
Proof.
  unfold format_full. intros H.
  apply rbind_ok_inv in H as [base [_ H]].
  apply rbind_ok_inv in H as [tz [_ H]].
  apply rbind_ok_inv in H as [ls [_ H]].
  apply rbind_ok_inv in H as [la [_ H]].
  apply rbind_ok_inv in H as [c2 [_ H]].
  apply rbind_ok_inv in H as [c3 [_ H]].
  injection H as <-. simpl. rewrite length_app. simpl.
  rewrite Nat.add_comm. reflexivity.
Qed.

Lemma format_code_truthy c f : format_code c = Ok f -> truthy (JObj f) = true.
Proof.
  unfold format_code. intros H.
  apply rbind_ok_inv in H as [base [_ H]].
  apply rbind_ok_inv in H as [tz [_ H]].
  apply rbind_ok_inv in H as [cs [_ H]].
  apply rbind_ok_inv in H as [cu [_ H]].
  apply rbind_ok_inv in H as [c2 [_ H]].
  apply rbind_ok_inv in H as [c3 [_ H]].
  injection H as <-. simpl. rewrite length_app. simpl.
  rewrite Nat.add_comm. reflexivity.
Qed.

(** A value that is not an object cannot be formatted. *)
Lemma format_base_not_object c :
  (forall kvs, c <> JObj kvs) -> exists e, format_base c = Raise e.
Proof.
  intros H. destruct c; try (eexists; reflexivity). exfalso. eapply H. reflexivity.
Qed.

Lemma fetch_country_by_name_first_match http_get name :
  fetch_country_by_name http_get name
  = match http_get (BASE_URL ++ "/name/" ++ name) with
    | Ok (JArr (c :: _)) =>
        match format_full c with Ok f => Some f | Raise _ => None end
    | _ => None
    end.
Proof.
  unfold fetch_country_by_name.
  destruct (http_get (BASE_URL ++ "/name/" ++ name))
    as [[| [] | q | [|ch s] | [|c rest] | [|kv kvs]]|e]; simpl; try reflexivity.
  - destruct (negb (Qeq_bool q 0)); reflexivity.
  - destruct (format_full c); reflexivity.
Qed.

(** [GET /countries/search]: a non-empty name is answered 200 exactly
    when the upstream answer is a non-empty JSON array whose first entry
    formats, with that entry; an upstream failure, an empty or malformed
    answer all become the same 404 "not found". *)
Theorem search_countries_status (http_get : string -> res json) (name : string) :
  name <> "" ->
  (forall body, search_countries http_get name = App.HTTP200 body <->
     exists c rest, http_get (BASE_URL ++ "/name/" ++ name) = Ok (JArr (c :: rest)) /\
                    format_full c = Ok body) /\
  (forall code detail, search_countries http_get name = App.HTTPError code detail ->
     code = 404%Z).
Proof.
  intros Hn. unfold search_countries.
  rewrite (proj2 (String.eqb_neq _ _) Hn), fetch_country_by_name_first_match.
  destruct (http_get (BASE_URL ++ "/name/" ++ name))
    as [[| b | q | s | [|c rest] | kvs]|e];
    try (split; [intros body; split;
                 [discriminate | intros (c & rest & Hj & _); discriminate]
                | intros code detail Hc; injection Hc as <- _; reflexivity]).
  destruct (format_full c) as [f|e] eqn:F.
  - rewrite (format_full_truthy c f F). split.
    + intros body. split.
      * intros Hb. injection Hb as <-. eauto.
      * intros (c' & rest' & Hj & Hf). injection Hj as <- <-. congruence.
    + intros code detail Hc. discriminate.
  - split.
    + intros body. split; [discriminate|].
      intros (c' & rest' & Hj & Hf). injection Hj as <- <-. congruence.
    + intros code detail Hc. injection Hc as <- _. reflexivity.
Qed.

Lemma search_countries_status_witness :
  (forall body, search_countries (fun _ => Ok (JArr [france])) "France" = App.HTTP200 body <->
     exists c rest, (fun _ : string => Ok (JArr [france]))
                      (BASE_URL ++ "/name/" ++ "France") = Ok (JArr (c :: rest)) /\
                    format_full c = Ok body) /\
  (forall code detail,
     search_countries (fun _ => Ok (JArr [france])) "France" = App.HTTPError code detail ->
     code = 404%Z).
Proof. apply search_countries_status. discriminate. Defined.

(** [GET /countries/] answers 502 when the upstream request fails, when
    one listed country cannot be formatted (a single malformed entry fails
    the whole list), and when the upstream answers a non-empty JSON object
    instead of an array (its keys are iterated as countries). *)
Theorem get_all_countries_502 (http_get : string -> res json) (exn_str : exn -> string) :
  (exists e, http_get (BASE_URL ++ "/all") = Raise e) \/
  (exists cs c e, http_get (BASE_URL ++ "/all") = Ok (JArr cs) /\ In c cs /\
                  format_full c = Raise e) \/
  (exists kvs, http_get (BASE_URL ++ "/all") = Ok (JObj kvs) /\ kvs <> []) ->
  exists detail, get_all_countries http_get exn_str = App.HTTPError 502 detail.
Proof.
  unfold get_all_countries, fetch_all_countries.
  intros [(e & He) | [(cs & c & e & Hj & Hin & Hf) | (kvs & Hj & Hk)]].
  - rewrite He. simpl. eauto.
  - rewrite Hj. simpl. destruct (map_res_raise format_full cs c e Hin Hf) as [e' ->].
    eauto.
  - rewrite Hj. simpl. destruct kvs as [|[k v] kvs]; [congruence|].
    unfold dict_keys. simpl. eauto.
Qed.

Lemma get_all_countries_502_witness :
  exists detail,
    get_all_countries (fun _ => Ok (JArr [france; JStr "Atlantis"])) (fun _ => "error")
    = App.HTTPError 502 detail.
Proof.
  apply get_all_countries_502. right. left.
  exists [france; JStr "Atlantis"], (JStr "Atlantis"), AttributeError.
  split; [reflexivity | split; [right; left; reflexivity | reflexivity]].
Defined.

(** ... and 200 with one formatted dictionary per listed country, in
    order, when the upstream answers an array whose entries all format. *)
Theorem get_all_countries_200 (http_get : string -> res json) (exn_str : exn -> string)
    (cs : list json) :
  http_get (BASE_URL ++ "/all") = Ok (JArr cs) ->
  (forall c, In c cs -> exists f, format_full c = Ok f) ->
  exists body, get_all_countries http_get exn_str = App.HTTP200 body /\
               Forall2 (fun c f => format_full c = Ok f) cs body.
Proof.
  intros Hj Hall. unfold get_all_countries, fetch_all_countries.
  rewrite Hj. simpl. destruct (map_res_ok format_full cs Hall) as [ys [-> Hl]].
  eauto.
Qed.

Lemma get_all_countries_200_witness :
  exists body,
    get_all_countries (fun _ => Ok (JArr [france; JObj []])) (fun _ => "error")
    = App.HTTP200 body /\
    Forall2 (fun c f => format_full c = Ok f) [france; JObj []] body.
Proof.
  apply (get_all_countries_200 _ _ [france; JObj []]); [reflexivity|].
  intros c [<-|[<-|[]]]; eexists; reflexivity.
Defined.

(** [GET /countries/region/{region}] never reports an error: an upstream
    failure or a single malformed entry gives 200 with an empty list. *)
Theorem get_countries_by_region_empty_on_error (http_get : string -> res json)
    (region : string) :
  (exists e, http_get (BASE_URL ++ "/region/" ++ region) = Raise e) \/
  (exists cs c e, http_get (BASE_URL ++ "/region/" ++ region) = Ok (JArr cs) /\
                  In c cs /\ format_region c = Raise e) ->
  get_countries_by_region http_get region = App.HTTP200 [].
Proof.
  unfold get_countries_by_region, fetch_countries_by_region.
  intros [(e & He) | (cs & c & e & Hj & Hin & Hf)].
  - rewrite He. reflexivity.
  - rewrite Hj. simpl.
    destruct (map_res_raise format_region cs c e Hin Hf) as [e' ->]. reflexivity.
Qed.

Lemma get_countries_by_region_empty_on_error_witness :
  get_countries_by_region (fun _ => Ok (JArr [france; JNull])) "Europe" = App.HTTP200 [].
Proof.
  apply get_countries_by_region_empty_on_error. right.
  exists [france; JNull], JNull, AttributeError.
  split; [reflexivity | split; [right; left; reflexivity | reflexivity]].
Defined.

(** [GET /countries/code/{code}] formats the decoded body itself as one
    country: an upstream answer that is a JSON array (or anything but an
    object), like an upstream failure, is answered 404; an object that
    formats is answered 200. *)
Theorem get_country_by_code_status (http_get : string -> res json) (code : string) :
  (forall body, get_country_by_code http_get code = App.HTTP200 body <->
     exists kvs, http_get (BASE_URL ++ "/alpha/" ++ code) = Ok (JObj kvs) /\
                 format_code (JObj kvs) = Ok body) /\
  (forall status detail, get_country_by_code http_get code = App.HTTPError status detail ->
     status = 404%Z).
Proof.
  unfold get_country_by_code, fetch_countries_by_code.
  destruct (http_get (BASE_URL ++ "/alpha/" ++ code)) as [j|e]; cbn [rbind].
  - destruct (format_code j) as [f|e] eqn:F; cbn [rbind].
    + rewrite (format_code_truthy j f F). split.
      * intros body. split.
        -- intros Hb. injection Hb as <-.
           destruct j as [| | | | |kvs]; try (simpl in F; discriminate F).
           exists kvs. split; [reflexivity | exact F].
        -- intros (kvs & Hj & Hf). injection Hj as Hj. subst j. congruence.
      * intros status detail H. discriminate.
    + split.
      * intros body. split; [discriminate|].
        intros (kvs & Hj & Hf). injection Hj as Hj. subst j. congruence.
      * intros status detail H. injection H as <- _. reflexivity.
  - split.
    + intros body. split; [discriminate | intros (kvs & Hj & _); discriminate].
    + intros status detail H. injection H as <- _. reflexivity.
Qed.

End CountriesFacts.

(** ** Range of the facial features *)

Module FacialFeatures.

Import FacialExpression FacialExpressionFacts.


Section NonNegativeSqrt.

Variable sqrt : Q -> Q.
Hypothesis sqrt_nonneg : forall q, (0 <= sqrt q)%Q.



End NonNegativeSqrt.



End FacialFeatures.
